(** * Persisted record-collection managers

    A shallow embedding of the three scripts [1.py] (gaming computers),
    [4.py] (movies) and [5.py] (sports inventory), and the properties of
    their manager classes.

    Conventions of the embedding:
    - a Python [int] is a [Z]; a Python [float] is a binary64 [float]
      (the kernel's primitive floats, so [100 * 0.9] is the IEEE product);
    - a [str] is a [string] (its UTF-8 bytes);
    - a dataclass is a [Record] whose fields carry their annotated types;
    - a JSON object is a [gmap string value];
    - a method of a manager is a function of the manager's state that
      returns its result or the raised exception, the new state, and the
      trace of what it printed and wrote. *)

From Stdlib Require Import ZArith List Bool Floats Sorted Permutation Lia.
From stdpp Require Import gmap strings list fin_maps sorting.
Import ListNotations.

Set Warnings "-inexact-float".
Local Open Scope Z_scope.

(** ** The Python runtime the scripts rely on *)

(** JSON scalars, as [json.load] returns them. *)
Inductive value : Type :=
  | VInt (n : Z)
  | VFloat (f : float)
  | VStr (s : string)
  | VBool (b : bool)
  | VNull.

Abbreviation dict := (gmap string value).

(** The backing file: absent, present but not a JSON array of objects
    ([json.load] or the per-record reconstruction raises), or a document. *)
Inductive file_content : Type :=
  | Absent
  | Malformed
  | Doc (d : list dict).

Section Effects.
Context {Msg : Type}.

Inductive exn : Type :=
  | ValueError (m : Msg)
  | KeyError (k : string)
  | TypeError
  | JSONDecodeError.

(** What a method does to the outside: [print(...)] and the
    [json.dump] of [save_data]. *)
Inductive event : Type :=
  | Printed (m : Msg)
  | Written (d : list dict).

Definition is_write (e : event) : bool :=
  match e with Written _ => true | Printed _ => false end.

(** Number of invocations of the document store's write primitive. *)
Definition writes (t : list event) : nat := length (List.filter is_write t).

Context {St : Type}.

Definition M (A : Type) : Type := St -> (exn + A) * St * list event.

Definition ret {A} (a : A) : M A := fun s => (inr a, s, []).

Definition bind {A B} (m : M A) (k : A -> M B) : M B :=
  fun s =>
    match m s with
    | (inl e, s1, t1) => (inl e, s1, t1)
    | (inr a, s1, t1) =>
        match k a s1 with
        | (r, s2, t2) => (r, s2, t1 ++ t2)
        end
    end.

Definition get : M St := fun s => (inr s, s, []).
Definition put (s : St) : M unit := fun _ => (inr tt, s, []).
Definition raise {A} (e : exn) : M A := fun s => (inl e, s, []).
Definition emit (e : event) : M unit := fun s => (inr tt, s, [e]).
Definition print (m : Msg) : M unit := emit (Printed m).

(** [try: body except: handler] *)
Definition try_except {A} (body : M A) (handler : exn -> M A) : M A :=
  fun s =>
    match body s with
    | (inl e, s1, t1) =>
        match handler e s1 with
        | (r, s2, t2) => (r, s2, t1 ++ t2)
        end
    | r => r
    end.

Definition result_of {A} (r : (exn + A) * St * list event) : exn + A := r.1.1.
Definition state_of {A} (r : (exn + A) * St * list event) : St := r.1.2.
Definition trace_of {A} (r : (exn + A) * St * list event) : list event := r.2.
End Effects.

Arguments exn : clear implicits.
Arguments event : clear implicits.
Arguments M : clear implicits.

#[global] Instance M_ret {Msg St} : MRet (M Msg St) := fun A => ret.
#[global] Instance M_bind {Msg St} : MBind (M Msg St) := fun A B k m => bind m k.

(** A comprehension [[f(x) for x in xs]] whose body may raise. *)
Fixpoint mapE {E A B} (f : A -> E + B) (xs : list A) : E + list B :=
  match xs with
  | [] => inr []
  | x :: xs' =>
      match f x with
      | inl e => inl e
      | inr y =>
          match mapE f xs' with
          | inl e => inl e
          | inr ys => inr (y :: ys)
          end
      end
  end.

(** [next((x for x in xs if p(x)), None)] *)
Fixpoint next_match {A} (p : A -> bool) (xs : list A) : option A :=
  match xs with
  | [] => None
  | x :: xs' => if p x then Some x else next_match p xs'
  end.

(** In-place update of the object [next_match] returned: the first record
    satisfying [p] is replaced by [f] of it, every alias of the list sees
    the change. *)
Fixpoint update_first {A} (p : A -> bool) (f : A -> A) (xs : list A) : list A :=
  match xs with
  | [] => []
  | x :: xs' => if p x then f x :: xs' else x :: update_first p f xs'
  end.

(** [needle in hay] on strings. *)
Fixpoint str_prefix (p s : string) : bool :=
  match p, s with
  | EmptyString, _ => true
  | String a p', String b s' => if Ascii.eqb a b then str_prefix p' s' else false
  | String _ _, EmptyString => false
  end.

Fixpoint str_in (needle hay : string) : bool :=
  if str_prefix needle hay then true
  else match hay with
       | EmptyString => false
       | String _ hay' => str_in needle hay'
       end.

(** Truthiness of a [str]. *)
Definition str_truthy (s : string) : bool :=
  match s with EmptyString => false | _ => true end.

(** Typed reads of a JSON object. [data[k]] raises [KeyError] when the key
    is missing. A value that does not carry the field's annotated type has
    no counterpart among the typed records; the embedding reports it as
    [TypeError]. *)
Section Dict.
Context {Msg : Type}.

Definition getitem (data : dict) (k : string) : exn Msg + value :=
  match data !! k with
  | Some v => inr v
  | None => inl (KeyError k)
  end.

(** [int(n)] as a binary64, round to nearest even. *)
Definition float_of_Z (n : Z) : float :=
  SF2Prim (binary_normalize prec emax n 0 false).

Definition as_int (v : value) : exn Msg + Z :=
  match v with VInt n => inr n | _ => inl TypeError end.
Definition as_float (v : value) : exn Msg + float :=
  match v with
  | VFloat f => inr f
  | VInt n => inr (float_of_Z n)
  | _ => inl TypeError
  end.
Definition as_str (v : value) : exn Msg + string :=
  match v with VStr s => inr s | _ => inl TypeError end.
Definition as_bool (v : value) : exn Msg + bool :=
  match v with VBool b => inr b | _ => inl TypeError end.

Definition bindE {A B} (r : exn Msg + A) (k : A -> exn Msg + B) : exn Msg + B :=
  match r with inl e => inl e | inr a => k a end.

Definition get_int (data : dict) (k : string) : exn Msg + Z :=
  bindE (getitem data k) as_int.
Definition get_float (data : dict) (k : string) : exn Msg + float :=
  bindE (getitem data k) as_float.
Definition get_str (data : dict) (k : string) : exn Msg + string :=
  bindE (getitem data k) as_str.

(** [data.get(k, default)] for a boolean flag. *)
Definition get_bool_default (data : dict) (k : string) (default : bool)
  : exn Msg + bool :=
  match data !! k with
  | Some v => as_bool v
  | None => inr default
  end.
End Dict.

#[global] Instance exn_bind {Msg} : MBind (sum (exn Msg)) :=
  fun A B k r => bindE r k.

(** ** [sorted(xs, key=..., reverse=...)]

    [list.sort] compares keys with [<] only and is stable. The ascending
    sort is the left-to-right insertion that the runtime's binary
    insertion performs: each record goes after every record already placed
    whose key is not greater. With [reverse=True] the runtime reverses the
    list, sorts it the same way, and reverses the outcome, which keeps
    ties in their original order. *)
Section Sorted.
Context {A K : Type} (key : A -> K) (lt : K -> K -> bool).

Fixpoint insert_sorted (x : A) (l : list A) : list A :=
  match l with
  | [] => [x]
  | y :: l' =>
      if lt (key x) (key y) then x :: y :: l' else y :: insert_sorted x l'
  end.

Definition list_sort (l : list A) : list A :=
  fold_left (fun acc x => insert_sorted x acc) l [].

Definition sorted (reverse : bool) (l : list A) : list A :=
  if reverse then rev (list_sort (rev l)) else list_sort l.

(** Two keys the sort cannot tell apart: neither is less than the other. *)
Definition key_equal (k1 k2 : K) : bool :=
  negb (lt k1 k2) && negb (lt k2 k1).

(** The records of [l] whose key equals [k], in the order of [l]. *)
Definition with_key (k : K) (l : list A) : list A :=
  List.filter (fun a => key_equal k (key a)) l.

(** All records have distinct keys: any two of them are ordered by [<]
    one way or the other. *)
Definition comparable (a b : A) : Prop :=
  lt (key a) (key b) = true \/ lt (key b) (key a) = true.

Definition distinct_keys (l : list A) : Prop := ForallOrdPairs comparable l.

(** [b] is not to be placed before [a]. *)
Definition not_after (a b : A) : Prop := lt (key b) (key a) = false.

(** [a] is to be placed before [b]. *)
Definition before (a b : A) : Prop := lt (key a) (key b) = true.

(** The key of [a] is one that [<] orders. *)
Definition in_dom (dom : K -> Prop) (a : A) : Prop := dom (key a).
End Sorted.

Arguments key_equal : simpl never.

(** ** [max(xs, key=...)] and [min(xs, key=...)]

    The runtime walks the list once and replaces the candidate only when
    the next record compares strictly better ([>] for [max], [<] for
    [min]), so the first of several extreme records wins. On an empty
    list it raises; the callers test for emptiness first. *)
Section Extremes.
Context {A K : Type} (key : A -> K) (lt : K -> K -> bool).

Fixpoint keep_best (better : K -> K -> bool) (best : A) (l : list A) : A :=
  match l with
  | [] => best
  | x :: l' => keep_best better (if better (key x) (key best) then x else best) l'
  end.

Definition py_max (l : list A) : option A :=
  match l with
  | [] => None
  | x :: l' => Some (keep_best (fun a b => lt b a) x l')
  end.

Definition py_min (l : list A) : option A :=
  match l with
  | [] => None
  | x :: l' => Some (keep_best lt x l')
  end.
End Extremes.

(** Lifting a reconstruction result into a method. *)
Definition liftE {Msg St A} (r : exn Msg + A) : M Msg St A :=
  match r with inl e => raise e | inr a => ret a end.

(** ** [1.py]: gaming computers *)
Module Computers.

Record GamingComputer : Type := {
  id : Z;
  model : string;
  processor : string;
  ram : Z;
  ssd : Z;
  graphics_card : string;
  price : float;
  is_on_sale : bool
}.

(** The texts the manager prints or raises, one constructor per
    f-string, carrying the values it interpolates. *)
Inductive message : Type :=
  | Loaded (n : nat)
  | LoadError
  | SampleCreated
  | AlreadyExists (i : Z)
  | Added (m : string)
  | Deleted (i : Z)
  | NotFound (i : Z)
  | Removed (m : string)
  | BadIndex (last : Z)
  | RamUpgraded (i : Z) (r : Z)
  | MarkedOnSale (i : Z) (p : float)
  | AlreadyOnSale (i : Z).

Definition to_dict (c : GamingComputer) : dict :=
  <["id" := VInt (id c)]>
  (<["model" := VStr (model c)]>
  (<["processor" := VStr (processor c)]>
  (<["ram" := VInt (ram c)]>
  (<["ssd" := VInt (ssd c)]>
  (<["graphics_card" := VStr (graphics_card c)]>
  (<["price" := VFloat (price c)]>
  (<["is_on_sale" := VBool (is_on_sale c)]> ∅))))))).

Definition from_dict (data : dict) : exn message + GamingComputer :=
  i ← get_int data "id";
  m ← get_str data "model";
  p ← get_str data "processor";
  r ← get_int data "ram";
  s ← get_int data "ssd";
  g ← get_str data "graphics_card";
  pr ← get_float data "price";
  sale ← get_bool_default data "is_on_sale" false;
  inr {| id := i; model := m; processor := p; ram := r; ssd := s;
         graphics_card := g; price := pr; is_on_sale := sale |}.

(** The manager: its list of records and the file [self.filename] names. *)
Record ComputerManager : Type := {
  computers : list GamingComputer;
  file : file_content
}.

Abbreviation Method := (M message ComputerManager).

Definition set_computers (cs : list GamingComputer) : Method unit :=
  s ← get; put {| computers := cs; file := file s |}.

Definition save_data : Method unit :=
  s ← get;
  let data := map to_dict (computers s) in
  put {| computers := computers s; file := Doc data |};;
  emit (Written data).

Definition mk (i : Z) (m p : string) (r s : Z) (g : string) (pr : float)
  : GamingComputer :=
  {| id := i; model := m; processor := p; ram := r; ssd := s;
     graphics_card := g; price := pr; is_on_sale := false |}.

Definition sample_computers : list GamingComputer :=
  [ mk 1 "GameMaster Pro" "Intel i9-13900K" 32 1000 "NVIDIA RTX 4090" 250000;
    mk 2 "Striker Elite" "AMD Ryzen 9 7950X" 64 2000 "NVIDIA RTX 4080" 320000;
    mk 3 "PowerPlay" "Intel i7-13700K" 16 512 "NVIDIA RTX 4070" 150000;
    mk 4 "Budget Gamer" "AMD Ryzen 5 7600" 16 512 "NVIDIA RTX 3060" 90000;
    mk 5 "Starter Pack" "Intel i5-13400F" 8 256 "NVIDIA GTX 1660" 55000 ].

Definition init_sample_data : Method unit :=
  set_computers sample_computers;;
  save_data;;
  print SampleCreated.

Definition json_load : Method (list dict) :=
  s ← get;
  match file s with
  | Doc d => ret d
  | _ => raise JSONDecodeError
  end.

Definition load_data : Method unit :=
  s ← get;
  match file s with
  | Absent => set_computers [];; init_sample_data
  | _ =>
      try_except
        (data ← json_load;
         cs ← liftE (mapE from_dict data);
         set_computers cs;;
         print (Loaded (length cs)))
        (fun _ => print LoadError;; set_computers [])
  end.

(** [ComputerManager(filename)] *)
Definition init (f : file_content) : (exn message + unit) * ComputerManager * list (event message) :=
  load_data {| computers := []; file := f |}.

Section Search.
(** [str.lower] of the runtime. *)
Variable lower : string -> string.

Definition search_by_criteria (min_ram : option Z) (max_price : option float)
    (min_ssd : option Z) (graphics_required : option string)
  : Method (list GamingComputer) :=
  s ← get;
  let results := computers s in
  let results :=
    match min_ram with
    | Some v => List.filter (fun c => ram c >=? v) results
    | None => results
    end in
  let results :=
    match max_price with
    | Some v => List.filter (fun c => PrimFloat.leb (price c) v) results
    | None => results
    end in
  let results :=
    match min_ssd with
    | Some v => List.filter (fun c => ssd c >=? v) results
    | None => results
    end in
  let results :=
    match graphics_required with
    | Some g =>
        if str_truthy g
        then List.filter (fun c => str_in (lower g) (lower (graphics_card c))) results
        else results
    | None => results
    end in
  ret results.

Definition filter_by_graphics (min_graphics : string)
  : Method (list GamingComputer) :=
  s ← get;
  ret (List.filter (fun c => str_in (lower min_graphics) (lower (graphics_card c)))
         (computers s)).
End Search.

Definition sort_by_price (ascending : bool) : Method (list GamingComputer) :=
  s ← get; ret (sorted price PrimFloat.ltb (negb ascending) (computers s)).

Definition sort_by_ram_ssd_sum (ascending : bool) : Method (list GamingComputer) :=
  s ← get; ret (sorted (fun x => ram x + ssd x) Z.ltb (negb ascending) (computers s)).

Definition add_computer (computer : GamingComputer) : Method unit :=
  s ← get;
  if existsb (fun c => id c =? id computer) (computers s)
  then raise (ValueError (AlreadyExists (id computer)))
  else
    set_computers (computers s ++ [computer]);;
    save_data;;
    print (Added (model computer)).

Definition delete_by_id (computer_id : Z) : Method unit :=
  s ← get;
  let initial_count := length (computers s) in
  set_computers (List.filter (fun c => negb (id c =? computer_id)) (computers s));;
  s' ← get;
  if (length (computers s') <? initial_count)%nat
  then save_data;; print (Deleted computer_id)
  else print (NotFound computer_id).

(** [list.pop(index)] for an index already known to be in range. *)
Definition pop (index : Z) (l : list GamingComputer) : list GamingComputer :=
  take (Z.to_nat index) l ++ drop (S (Z.to_nat index)) l.

Definition delete_by_index (index : Z) : Method unit :=
  s ← get;
  if (0 <=? index) && (index <? Z.of_nat (length (computers s)))
  then
    match computers s !! Z.to_nat index with
    | Some removed =>
        set_computers (pop index (computers s));;
        save_data;;
        print (Removed (model removed))
    | None => ret tt
    end
  else print (BadIndex (Z.of_nat (length (computers s)) - 1)).

Definition add_ram (additional_ram : Z) (c : GamingComputer) : GamingComputer :=
  {| id := id c; model := model c; processor := processor c;
     ram := ram c + additional_ram; ssd := ssd c;
     graphics_card := graphics_card c; price := price c;
     is_on_sale := is_on_sale c |}.

Definition upgrade_ram (computer_id additional_ram : Z) : Method unit :=
  s ← get;
  match next_match (fun c => id c =? computer_id) (computers s) with
  | Some computer =>
      set_computers
        (update_first (fun c => id c =? computer_id) (add_ram additional_ram)
           (computers s));;
      save_data;;
      print (RamUpgraded computer_id (ram computer + additional_ram))
  | None => print (NotFound computer_id)
  end.

Definition put_on_sale (c : GamingComputer) : GamingComputer :=
  {| id := id c; model := model c; processor := processor c;
     ram := ram c; ssd := ssd c; graphics_card := graphics_card c;
     price := (price c * 0.9)%float;
     is_on_sale := true |}.

Definition mark_as_sale (computer_id : Z) : Method unit :=
  s ← get;
  match next_match (fun c => id c =? computer_id) (computers s) with
  | Some computer =>
      if negb (is_on_sale computer)
      then
        set_computers
          (update_first (fun c => id c =? computer_id) put_on_sale (computers s));;
        save_data;;
        print (MarkedOnSale computer_id (price computer * 0.9)%float)
      else print (AlreadyOnSale computer_id)
  | None => print (NotFound computer_id)
  end.

Definition get_price_extremes
  : Method (option GamingComputer * option GamingComputer) :=
  s ← get;
  match computers s with
  | [] => ret (None, None)
  | _ :: _ =>
      ret (py_max price PrimFloat.ltb (computers s),
           py_min price PrimFloat.ltb (computers s))
  end.

End Computers.

(** ** [4.py]: movies *)
Module Movies.

Record Movie : Type := {
  id : Z;
  title : string;
  year : Z;
  genre : string;
  duration : Z;
  rating : float;
  price : float;
  is_epic : bool
}.

Inductive message : Type :=
  | Loaded (n : nat)
  | LoadError
  | SampleCreated
  | PriceIncreased (n : nat) (year_threshold : Z)
  | PriceLine (t : string) (y : Z) (old_price new_price : float) (percent : float)
  | NoOldMovies (year_threshold : Z)
  | MarkedEpic (n : nat)
  | EpicLine (t : string) (d : Z)
  | NoNewEpic.

Definition to_dict (m : Movie) : dict :=
  <["id" := VInt (id m)]>
  (<["title" := VStr (title m)]>
  (<["year" := VInt (year m)]>
  (<["genre" := VStr (genre m)]>
  (<["duration" := VInt (duration m)]>
  (<["rating" := VFloat (rating m)]>
  (<["price" := VFloat (price m)]>
  (<["is_epic" := VBool (is_epic m)]> ∅))))))).

Definition from_dict (data : dict) : exn message + Movie :=
  i ← get_int data "id";
  t ← get_str data "title";
  y ← get_int data "year";
  g ← get_str data "genre";
  d ← get_int data "duration";
  r ← get_float data "rating";
  p ← get_float data "price";
  e ← get_bool_default data "is_epic" false;
  inr {| id := i; title := t; year := y; genre := g; duration := d;
         rating := r; price := p; is_epic := e |}.

Record MovieManager : Type := {
  movies : list Movie;
  file : file_content
}.

Abbreviation Method := (M message MovieManager).

Definition set_movies (ms : list Movie) : Method unit :=
  s ← get; put {| movies := ms; file := file s |}.

Definition save_data : Method unit :=
  s ← get;
  let data := map to_dict (movies s) in
  put {| movies := movies s; file := Doc data |};;
  emit (Written data).

(** A sample movie, with the flag the seeding loop then assigns:
    [movie.is_epic = movie.duration > 150]. *)
Definition mk (i : Z) (t : string) (y : Z) (g : string) (d : Z) (r p : float)
  : Movie :=
  {| id := i; title := t; year := y; genre := g; duration := d;
     rating := r; price := p; is_epic := 150 <? d |}.

Definition sample_movies : list Movie :=
  [ mk 1 "Побег из Шоушенка" 1994 "драма" 142 9.3 350;
    mk 2 "Крёстный отец" 1972 "криминал" 175 9.2 400;
    mk 3 "Тёмный рыцарь" 2008 "боевик" 152 9.0 380;
    mk 4 "Криминальное чтиво" 1994 "криминал" 154 8.9 320;
    mk 5 "Бойцовский клуб" 1999 "триллер" 139 8.8 300;
    mk 6 "Форрест Гамп" 1994 "драма" 142 8.8 330;
    mk 7 "Начало" 2010 "фантастика" 148 8.8 390;
    mk 8 "Матрица" 1999 "фантастика" 136 8.7 310;
    mk 9 "Хороший, плохой, злой" 1966 "вестерн" 178 8.8 280;
    mk 10 "Зелёная миля" 1999 "драма" 189 8.9 340;
    mk 11 "Список Шиндлера" 1993 "драма" 195 9.0 360;
    mk 12 "1+1" 2011 "комедия" 112 8.8 320;
    mk 13 "Интерстеллар" 2014 "фантастика" 169 8.7 400;
    mk 14 "Гладиатор" 2000 "боевик" 155 8.5 330;
    mk 15 "Король Лев" 1994 "мультфильм" 88 8.5 300 ].

Definition init_sample_data : Method unit :=
  set_movies sample_movies;;
  save_data;;
  print SampleCreated.

Definition json_load : Method (list dict) :=
  s ← get;
  match file s with
  | Doc d => ret d
  | _ => raise JSONDecodeError
  end.

Definition load_data : Method unit :=
  s ← get;
  match file s with
  | Absent => set_movies [];; init_sample_data
  | _ =>
      try_except
        (data ← json_load;
         ms ← liftE (mapE from_dict data);
         set_movies ms;;
         print (Loaded (length ms)))
        (fun _ => print LoadError;; set_movies [];; init_sample_data)
  end.

Definition init (f : file_content) : (exn message + unit) * MovieManager * list (event message) :=
  load_data {| movies := []; file := f |}.

Section Search.
(** [str.lower] of the runtime. *)
Variable lower : string -> string.

Definition search_by_year_range_and_genre (year_from year_to : option Z)
    (genre_wanted : option string) : Method (list Movie) :=
  s ← get;
  let results := movies s in
  let results :=
    match year_from with
    | Some v => List.filter (fun m => year m >=? v) results
    | None => results
    end in
  let results :=
    match year_to with
    | Some v => List.filter (fun m => year m <=? v) results
    | None => results
    end in
  let results :=
    match genre_wanted with
    | Some g =>
        if str_truthy g
        then List.filter (fun m => str_in (lower g) (lower (genre m))) results
        else results
    | None => results
    end in
  ret results.
End Search.

Definition sort_by_duration (ascending : bool) : Method (list Movie) :=
  s ← get; ret (sorted duration Z.ltb (negb ascending) (movies s)).

Definition sort_by_rating_desc : Method (list Movie) :=
  s ← get; ret (sorted rating PrimFloat.ltb true (movies s)).

Definition set_price (p : float) (m : Movie) : Movie :=
  {| id := id m; title := title m; year := year m; genre := genre m;
     duration := duration m; rating := rating m; price := p;
     is_epic := is_epic m |}.

Definition set_epic (m : Movie) : Movie :=
  {| id := id m; title := title m; year := year m; genre := genre m;
     duration := duration m; rating := rating m; price := price m;
     is_epic := true |}.

Definition raised (increase_percent : float) (p : float) : float :=
  (p * (1 + increase_percent / 100))%float.

Definition increase_price_for_old_movies (year_threshold : Z)
    (increase_percent : float) : Method (list Movie) :=
  s ← get;
  let old := List.filter (fun m => year m <? year_threshold) (movies s) in
  set_movies
    (map (fun m => if year m <? year_threshold
                   then set_price (raised increase_percent (price m)) m
                   else m) (movies s));;
  match old with
  | [] => print (NoOldMovies year_threshold)
  | _ :: _ =>
      save_data;;
      print (PriceIncreased (length old) year_threshold);;
      foldr (fun m k =>
               print (PriceLine (title m) (year m) (price m)
                        (raised increase_percent (price m)) increase_percent);; k)
            (ret tt) old
  end;;
  ret (map (fun m => set_price (raised increase_percent (price m)) m) old).

Definition mark_epic_movies (duration_threshold : Z) : Method (list Movie) :=
  s ← get;
  let hit := fun m => (duration_threshold <? duration m) && negb (is_epic m) in
  let marked := map set_epic (List.filter hit (movies s)) in
  set_movies (map (fun m => if hit m then set_epic m else m) (movies s));;
  match marked with
  | [] => print NoNewEpic
  | _ :: _ =>
      save_data;;
      print (MarkedEpic (length marked));;
      foldr (fun m k => print (EpicLine (title m) (duration m));; k) (ret tt) marked
  end;;
  ret marked.

(** [sorted_movies[:3]] *)
Definition get_top_3_by_rating : Method (list Movie) :=
  sorted_movies ← sort_by_rating_desc;
  ret (take 3 sorted_movies).

Definition get_movies_by_genre (lower : string -> string) (genre_wanted : string)
  : Method (list Movie) :=
  s ← get;
  ret (List.filter (fun m => str_in (lower genre_wanted) (lower (genre m))) (movies s)).

End Movies.

(** ** [5.py]: sports inventory *)
Module Inventory.

Inductive Condition : Type := NEW | GOOD | WORN | NEEDS_REPAIR.

(** [Condition.value] *)
Definition value_of (c : Condition) : string :=
  match c with
  | NEW => "новый"
  | GOOD => "хороший"
  | WORN => "изношенный"
  | NEEDS_REPAIR => "требует ремонта"
  end.

(** Iteration order of the enumeration. *)
Definition all_conditions : list Condition := [NEW; GOOD; WORN; NEEDS_REPAIR].

Definition Condition_eqb (a b : Condition) : bool :=
  match a, b with
  | NEW, NEW | GOOD, GOOD | WORN, WORN | NEEDS_REPAIR, NEEDS_REPAIR => true
  | _, _ => false
  end.

Record SportsEquipment : Type := {
  id : Z;
  name : string;
  sport_type : string;
  weight : float;
  price : float;
  quantity : Z;
  condition : Condition
}.

Inductive message : Type :=
  | Loaded (n : nat)
  | LoadError
  | SampleCreated
  | NotFound (i : Z)
  | MustBePositive
  | NotEnough (available : Z)
  | WrittenOff (q : Z) (n : string) (left : Z)
  | ZeroLeft (n : string)
  | MarkedForRepair (n : nat)
  | NothingToMark
  | ZeroDeleted (n : nat)
  | NoZero.

Definition to_dict (e : SportsEquipment) : dict :=
  <["id" := VInt (id e)]>
  (<["name" := VStr (name e)]>
  (<["sport_type" := VStr (sport_type e)]>
  (<["weight" := VFloat (weight e)]>
  (<["price" := VFloat (price e)]>
  (<["quantity" := VInt (quantity e)]>
  (<["condition" := VStr (value_of (condition e))]> ∅)))))).

(** [c.value == condition_value]: a string equals only an equal string. *)
Definition value_matches (v : value) (c : Condition) : bool :=
  match v with
  | VStr s => String.eqb (value_of c) s
  | _ => false
  end.

Definition condition_of (v : value) : Condition :=
  match next_match (value_matches v) all_conditions with
  | Some c => c
  | None => GOOD
  end.

Definition from_dict (data : dict) : exn message + SportsEquipment :=
  condition_value ← getitem data "condition";
  let c := condition_of condition_value in
  i ← get_int data "id";
  n ← get_str data "name";
  s ← get_str data "sport_type";
  w ← get_float data "weight";
  p ← get_float data "price";
  q ← get_int data "quantity";
  inr {| id := i; name := n; sport_type := s; weight := w; price := p;
         quantity := q; condition := c |}.

Record InventoryManager : Type := {
  items : list SportsEquipment;
  file : file_content
}.

Abbreviation Method := (M message InventoryManager).

Definition set_items (l : list SportsEquipment) : Method unit :=
  s ← get; put {| items := l; file := file s |}.

Definition save_data : Method unit :=
  s ← get;
  let data := map to_dict (items s) in
  put {| items := items s; file := Doc data |};;
  emit (Written data).

Definition mk (i : Z) (n s : string) (w p : float) (q : Z) (c : Condition)
  : SportsEquipment :=
  {| id := i; name := n; sport_type := s; weight := w; price := p;
     quantity := q; condition := c |}.

Definition sample_items : list SportsEquipment :=
  [ mk 1 "Футбольный мяч" "футбол" 0.45 2500 50 GOOD;
    mk 2 "Баскетбольный мяч" "баскетбол" 0.62 3200 30 NEW;
    mk 3 "Теннисная ракетка" "теннис" 0.3 8500 15 NEW;
    mk 4 "Гантель 5 кг" "фитнес" 5.0 1200 25 GOOD;
    mk 5 "Гантель 10 кг" "фитнес" 10.0 2200 20 WORN;
    mk 6 "Штанга" "тяжелая атлетика" 20.0 15000 5 GOOD;
    mk 7 "Боксерские перчатки" "бокс" 0.5 4500 12 NEW;
    mk 8 "Скакалка" "фитнес" 0.2 800 40 GOOD;
    mk 9 "Велосипед" "велоспорт" 12.0 35000 3 NEW;
    mk 10 "Лыжи" "лыжный спорт" 2.5 18000 8 NEEDS_REPAIR ].

Definition init_sample_data : Method unit :=
  set_items sample_items;;
  save_data;;
  print SampleCreated.

Definition json_load : Method (list dict) :=
  s ← get;
  match file s with
  | Doc d => ret d
  | _ => raise JSONDecodeError
  end.

Definition load_data : Method unit :=
  s ← get;
  match file s with
  | Absent => set_items [];; init_sample_data
  | _ =>
      try_except
        (data ← json_load;
         l ← liftE (mapE from_dict data);
         set_items l;;
         print (Loaded (length l)))
        (fun _ => print LoadError;; set_items [];; init_sample_data)
  end.

Definition init (f : file_content) : (exn message + unit) * InventoryManager * list (event message) :=
  load_data {| items := []; file := f |}.

Section Search.
(** [str.lower] of the runtime. *)
Variable lower : string -> string.

Definition search_by_sport_and_weight (sport_wanted : option string)
    (min_weight max_weight : option float) : Method (list SportsEquipment) :=
  s ← get;
  let results := items s in
  let results :=
    match sport_wanted with
    | Some g =>
        if str_truthy g
        then List.filter (fun e => str_in (lower g) (lower (sport_type e))) results
        else results
    | None => results
    end in
  let results :=
    match min_weight with
    | Some v => List.filter (fun e => PrimFloat.leb v (weight e)) results
    | None => results
    end in
  let results :=
    match max_weight with
    | Some v => List.filter (fun e => PrimFloat.leb (weight e) v) results
    | None => results
    end in
  ret results.
End Search.

Definition sort_by_price (ascending : bool) : Method (list SportsEquipment) :=
  s ← get; ret (sorted price PrimFloat.ltb (negb ascending) (items s)).

Definition sort_by_quantity_desc : Method (list SportsEquipment) :=
  s ← get; ret (sorted quantity Z.ltb true (items s)).

Definition take_out (q : Z) (e : SportsEquipment) : SportsEquipment :=
  {| id := id e; name := name e; sport_type := sport_type e;
     weight := weight e; price := price e; quantity := quantity e - q;
     condition := condition e |}.

Definition write_off (item_id quantity_off : Z) : Method bool :=
  s ← get;
  match next_match (fun i => id i =? item_id) (items s) with
  | None => print (NotFound item_id);; ret false
  | Some item =>
      if quantity_off <=? 0
      then print MustBePositive;; ret false
      else if quantity item <? quantity_off
      then print (NotEnough (quantity item));; ret false
      else
        set_items (update_first (fun i => id i =? item_id) (take_out quantity_off)
                     (items s));;
        save_data;;
        print (WrittenOff quantity_off (name item) (quantity item - quantity_off));;
        (if quantity item - quantity_off =? 0
         then print (ZeroLeft (name item))
         else ret tt);;
        ret true
  end.

Definition get_new_items : Method (list SportsEquipment) :=
  s ← get; ret (List.filter (fun i => Condition_eqb (condition i) NEW) (items s)).

Definition set_condition (c : Condition) (e : SportsEquipment) : SportsEquipment :=
  {| id := id e; name := name e; sport_type := sport_type e;
     weight := weight e; price := price e; quantity := quantity e;
     condition := c |}.

(** The test of the loop in [mark_for_repair]. *)
Definition repairable (e : SportsEquipment) : bool :=
  negb (Condition_eqb (condition e) NEW)
  && negb (Condition_eqb (condition e) NEEDS_REPAIR).

Definition mark_for_repair : Method (list SportsEquipment) :=
  s ← get;
  let marked_items :=
    map (set_condition NEEDS_REPAIR) (List.filter repairable (items s)) in
  set_items
    (map (fun e => if repairable e then set_condition NEEDS_REPAIR e else e)
       (items s));;
  match marked_items with
  | [] => print NothingToMark
  | _ :: _ => save_data;; print (MarkedForRepair (length marked_items))
  end;;
  ret marked_items.

Definition delete_zero_quantity : Method nat :=
  s ← get;
  let initial_count := length (items s) in
  set_items (List.filter (fun i => 0 <? quantity i) (items s));;
  s' ← get;
  let deleted_count := (initial_count - length (items s'))%nat in
  (if (0 <? deleted_count)%nat
   then save_data;; print (ZeroDeleted deleted_count)
   else print NoZero);;
  ret deleted_count.

Definition get_heaviest_item : Method (option SportsEquipment) :=
  s ← get;
  match items s with
  | [] => ret None
  | _ :: _ => ret (py_max weight PrimFloat.ltb (items s))
  end.

End Inventory.

(** ** [5.py], second script: video games

    [GameManager] keeps its list in memory only: no file, and no output
    apart from [print_games]. A method is a function of the manager. *)
Module Games.

Record VideoGame : Type := {
  title : string;
  genre : string;
  platform : string;
  age_rating : Z;
  player_score : float;
  price : float;
  copies_sold : Z;
  is_hit : bool
}.

(** [VideoGame(...)]: the constructor leaves [is_hit] at [False]. *)
Definition new (t g p : string) (a : Z) (s pr : float) (c : Z) : VideoGame :=
  {| title := t; genre := g; platform := p; age_rating := a; player_score := s;
     price := pr; copies_sold := c; is_hit := false |}.

Definition update_hit_status (g : VideoGame) : VideoGame :=
  {| title := title g; genre := genre g; platform := platform g;
     age_rating := age_rating g; player_score := player_score g;
     price := price g; copies_sold := copies_sold g;
     is_hit := PrimFloat.leb 8.5 (player_score g) |}.

Record GameManager : Type := { games : list VideoGame }.

Definition init : GameManager := {| games := [] |}.

(** The game is appended and then has its hit status set. *)
Definition add_game (game : VideoGame) (m : GameManager) : GameManager :=
  {| games := games m ++ [update_hit_status game] |}.

Section Text.
(** [str.lower] of the runtime. *)
Variable lower : string -> string.

Definition search_by_title (substring : string) (m : GameManager) : list VideoGame :=
  List.filter (fun g => str_in (lower substring) (lower (title g))) (games m).

Definition filter_games (age_wanted : option Z) (platform_wanted : option string)
    (m : GameManager) : list VideoGame :=
  let filtered := games m in
  let filtered :=
    match age_wanted with
    | Some a => List.filter (fun g => age_rating g =? a) filtered
    | None => filtered
    end in
  let filtered :=
    match platform_wanted with
    | Some p => List.filter (fun g => String.eqb (lower (platform g)) (lower p)) filtered
    | None => filtered
    end in
  filtered.

Definition sort_games (by_ : string) (ascending : bool) (m : GameManager)
  : list VideoGame :=
  if String.eqb by_ "score"
  then sorted player_score PrimFloat.ltb (negb ascending) (games m)
  else if String.eqb by_ "name"
  then sorted (fun g => lower (title g)) String.ltb (negb ascending) (games m)
  else games m.

Definition set_price (p : float) (g : VideoGame) : VideoGame :=
  {| title := title g; genre := genre g; platform := platform g;
     age_rating := age_rating g; player_score := player_score g;
     price := p; copies_sold := copies_sold g; is_hit := is_hit g |}.

Definition change_price_by_genre (genre_wanted : string) (discount_percent : float)
    (m : GameManager) : GameManager :=
  {| games :=
       map (fun g =>
              if String.eqb (lower (genre g)) (lower genre_wanted)
              then set_price (price g * (1 - discount_percent / 100))%float g
              else g)
           (games m) |}.
End Text.

Definition game_with_max_score (m : GameManager) : option VideoGame :=
  match games m with
  | [] => None
  | _ :: _ => py_max player_score PrimFloat.ltb (games m)
  end.

Definition mark_hits (m : GameManager) : GameManager :=
  {| games := map update_hit_status (games m) |}.

Definition remove_out_of_stock (m : GameManager) : GameManager :=
  {| games := List.filter (fun g => 0 <? copies_sold g) (games m) |}.

End Games.

(** ** [5.py], third script: online courses *)
Module Courses.

Record OnlineCourse : Type := {
  title : string;
  platform : string;
  difficulty : string;
  duration_hours : Z;
  rating : float;
  price : float;
  students_enrolled : Z
}.

Record CourseManager : Type := { courses : list OnlineCourse }.

Definition init : CourseManager := {| courses := [] |}.

Definition add_course (course : OnlineCourse) (m : CourseManager) : CourseManager :=
  {| courses := courses m ++ [course] |}.

Section Text.
(** [str.lower] of the runtime. *)
Variable lower : string -> string.

Definition search_by_platform_and_difficulty
    (platform_wanted difficulty_wanted : option string) (m : CourseManager)
  : list OnlineCourse :=
  let result := courses m in
  let result :=
    match platform_wanted with
    | Some p =>
        if str_truthy p
        then List.filter (fun c => String.eqb (lower (platform c)) (lower p)) result
        else result
    | None => result
    end in
  let result :=
    match difficulty_wanted with
    | Some d =>
        if str_truthy d
        then List.filter (fun c => String.eqb (lower (difficulty c)) (lower d)) result
        else result
    | None => result
    end in
  result.

Definition set_price (p : float) (c : OnlineCourse) : OnlineCourse :=
  {| title := title c; platform := platform c; difficulty := difficulty c;
     duration_hours := duration_hours c; rating := rating c; price := p;
     students_enrolled := students_enrolled c |}.

Definition increase_price_for_advanced (percent : float) (m : CourseManager)
  : CourseManager :=
  {| courses :=
       map (fun c =>
              if String.eqb (lower (difficulty c)) "продвинутый"
              then set_price (price c * (1 + percent / 100))%float c
              else c)
           (courses m) |}.

(** [x in [a, b]] *)
Definition merge_platforms (platform1 platform2 : string) (m : CourseManager)
  : list OnlineCourse :=
  let platform1_lower := lower platform1 in
  let platform2_lower := lower platform2 in
  List.filter (fun c => String.eqb (lower (platform c)) platform1_lower
                        || String.eqb (lower (platform c)) platform2_lower)
    (courses m).
End Text.

Definition sort_courses (by_ : string) (ascending : bool) (m : CourseManager)
  : list OnlineCourse :=
  if String.eqb by_ "duration"
  then sorted duration_hours Z.ltb (negb ascending) (courses m)
  else if String.eqb by_ "students"
  then sorted students_enrolled Z.ltb (negb ascending) (courses m)
  else courses m.

Definition courses_longer_than (hours : Z) (m : CourseManager) : list OnlineCourse :=
  List.filter (fun c => hours <? duration_hours c) (courses m).

Definition course_with_min_rating (m : CourseManager) : option OnlineCourse :=
  match courses m with
  | [] => None
  | _ :: _ => py_min rating PrimFloat.ltb (courses m)
  end.

Definition remove_low_rating_courses (threshold : float) (m : CourseManager)
  : CourseManager :=
  {| courses := List.filter (fun c => PrimFloat.leb threshold (rating c)) (courses m) |}.

End Courses.

(** ** Vocabulary of the properties *)

(** An omitted criterion imposes no filter. *)
Definition criterion {V A} (test : V -> A -> bool) (o : option V) (x : A) : bool :=
  match o with
  | Some v => test v x
  | None => true
  end.

(** A text criterion; the empty text counts as omitted. *)
Definition text_criterion {A} (lower : string -> string) (field : A -> string)
    (o : option string) (x : A) : bool :=
  criterion (fun g x => if str_truthy g then str_in (lower g) (lower (field x)) else true)
    o x.

(** The criteria of [search_by_criteria], composed by logical AND. *)
Definition computer_meets (lower : string -> string)
    (min_ram : option Z) (max_price : option float) (min_ssd : option Z)
    (graphics_required : option string) (c : Computers.GamingComputer) : bool :=
  criterion (fun v c => Computers.ram c >=? v) min_ram c
  && criterion (fun v c => PrimFloat.leb (Computers.price c) v) max_price c
  && criterion (fun v c => Computers.ssd c >=? v) min_ssd c
  && text_criterion lower Computers.graphics_card graphics_required c.

(** The criteria of [search_by_year_range_and_genre], composed by AND. *)
Definition movie_meets (lower : string -> string)
    (year_from year_to : option Z) (genre_wanted : option string)
    (m : Movies.Movie) : bool :=
  criterion (fun v m => Movies.year m >=? v) year_from m
  && criterion (fun v m => Movies.year m <=? v) year_to m
  && text_criterion lower Movies.genre genre_wanted m.

(** The second query has every criterion of the first, and possibly one
    the first omitted. *)
Definition adds {V} (o o' : option V) : Prop := o = None \/ o = o'.

(** [p == p], that is, [p] is not NaN. *)
Definition not_nan (p : float) : Prop := is_nan p = false.

(** The file holds exactly the serialization of the records in memory. *)
Definition synced (m : Computers.ComputerManager) : Prop :=
  Computers.file m = Doc (map Computers.to_dict (Computers.computers m)).

(** No two records of the manager share an id. *)
Definition unique_ids (m : Computers.ComputerManager) : Prop :=
  List.NoDup (map Computers.id (Computers.computers m)).

(** The keys [GamingComputer.from_dict] reads with [data[...]]. *)
Definition required_keys : list string :=
  ["id"; "model"; "processor"; "ram"; "ssd"; "graphics_card"; "price"].

(** The flag of a game says whether its score reaches 8.5. *)
Definition hit_consistent (g : Games.VideoGame) : Prop :=
  Games.is_hit g = PrimFloat.leb 8.5 (Games.player_score g).

(** The stock of every item is zero or more. *)
Definition stock_nonnegative (m : Inventory.InventoryManager) : Prop :=
  Forall (fun e => 0 <= Inventory.quantity e) (Inventory.items m).

(** The criteria of [search_by_sport_and_weight], composed by AND. *)
Definition item_meets (lower : string -> string)
    (sport_wanted : option string) (min_weight max_weight : option float)
    (e : Inventory.SportsEquipment) : bool :=
  text_criterion lower Inventory.sport_type sport_wanted e
  && criterion (fun v e => PrimFloat.leb v (Inventory.weight e)) min_weight e
  && criterion (fun v e => PrimFloat.leb (Inventory.weight e) v) max_weight e.

(** The criteria of [filter_games], composed by AND. *)
Definition game_meets (lower : string -> string)
    (age_wanted : option Z) (platform_wanted : option string)
    (g : Games.VideoGame) : bool :=
  criterion (fun a g => Games.age_rating g =? a) age_wanted g
  && criterion (fun p g => String.eqb (lower (Games.platform g)) (lower p))
       platform_wanted g.

(** A text criterion that asks for equality up to case; the empty text
    counts as omitted. *)
Definition same_text_criterion {A} (lower : string -> string) (field : A -> string)
    (o : option string) (x : A) : bool :=
  criterion (fun t x => if str_truthy t then String.eqb (lower (field x)) (lower t)
                        else true) o x.

(** The criteria of [search_by_platform_and_difficulty], composed by AND. *)
Definition course_meets (lower : string -> string)
    (platform_wanted difficulty_wanted : option string)
    (c : Courses.OnlineCourse) : bool :=
  same_text_criterion lower Courses.platform platform_wanted c
  && same_text_criterion lower Courses.difficulty difficulty_wanted c.

(** A movie longer than the threshold that does not carry the flag yet. *)
Definition newly_epic (t : Z) (x : Movies.Movie) : bool :=
  (t <? Movies.duration x) && negb (Movies.is_epic x).

(** A movie released before the threshold year. *)
Definition is_old (year_threshold : Z) (x : Movies.Movie) : bool :=
  Movies.year x <? year_threshold.

(** The movie with its price raised by the percentage. *)
Definition with_raised_price (increase_percent : float) (x : Movies.Movie)
  : Movies.Movie :=
  Movies.set_price (Movies.raised increase_percent (Movies.price x)) x.

(** ** Sample records, managers and documents *)

Definition pc (i : Z) (r : Z) (p : float) (sale : bool) : Computers.GamingComputer :=
  {| Computers.id := i; Computers.model := "PC"; Computers.processor := "CPU";
     Computers.ram := r; Computers.ssd := 512; Computers.graphics_card := "GPU";
     Computers.price := p; Computers.is_on_sale := sale |}.

Definition shop (cs : list Computers.GamingComputer) : Computers.ComputerManager :=
  {| Computers.computers := cs; Computers.file := Doc (map Computers.to_dict cs) |}.

Definition discounted (c : Computers.GamingComputer) : Computers.GamingComputer :=
  {| Computers.id := Computers.id c; Computers.model := Computers.model c;
     Computers.processor := Computers.processor c; Computers.ram := Computers.ram c;
     Computers.ssd := Computers.ssd c;
     Computers.graphics_card := Computers.graphics_card c;
     Computers.price := 90%float; Computers.is_on_sale := true |}.

Definition gear (i : Z) (q : Z) (c : Inventory.Condition) : Inventory.SportsEquipment :=
  {| Inventory.id := i; Inventory.name := "ball"; Inventory.sport_type := "football";
     Inventory.weight := 0.5; Inventory.price := 2500; Inventory.quantity := q;
     Inventory.condition := c |}.

Definition store (l : list Inventory.SportsEquipment) : Inventory.InventoryManager :=
  {| Inventory.items := l; Inventory.file := Doc (map Inventory.to_dict l) |}.

Definition bare_computer : dict :=
  <["id" := VInt 7]> (<["model" := VStr "PC"]> (<["processor" := VStr "CPU"]>
  (<["ram" := VInt 16]> (<["ssd" := VInt 512]> (<["graphics_card" := VStr "GPU"]>
  (<["price" := VFloat 100]> ∅)))))).

Definition bare_movie : dict :=
  <["id" := VInt 7]> (<["title" := VStr "Film"]> (<["year" := VInt 1999]>
  (<["genre" := VStr "drama"]> (<["duration" := VInt 120]>
  (<["rating" := VFloat 8.5]> (<["price" := VInt 300]> ∅)))))).

Definition odd_gear : dict :=
  <["id" := VInt 7]> (<["name" := VStr "ball"]> (<["sport_type" := VStr "football"]>
  (<["weight" := VFloat 0.5]> (<["price" := VFloat 2500]> (<["quantity" := VInt 4]>
  (<["condition" := VStr "broken"]> ∅)))))).

(** ** Tactics *)

(** Unfolds the sequencing of a method down to its result triple. *)
Ltac run_method :=
  cbv beta delta [mbind M_bind bind mret M_ret ret get put raise emit print
                  try_except liftE
                  Computers.set_computers Computers.save_data Computers.json_load
                  Movies.set_movies Movies.save_data Movies.json_load
                  Inventory.set_items Inventory.save_data Inventory.json_load];
  cbn beta iota zeta.

(** Case analysis on the comparisons inside [SFcompare]. *)
Ltac cases_compare :=
  repeat match goal with
  | |- context [Z.compare ?a ?b] => destruct (Z.compare_spec a b)
  | H : context [Z.compare ?a ?b] |- _ => destruct (Z.compare_spec a b)
  | |- context [Pos.compare_cont Eq ?a ?b] =>
      change (Pos.compare_cont Eq a b) with (Pos.compare a b);
      destruct (Pos.compare_spec a b)
  | H : context [Pos.compare_cont Eq ?a ?b] |- _ =>
      change (Pos.compare_cont Eq a b) with (Pos.compare a b) in H;
      destruct (Pos.compare_spec a b)
  end.

(** Exhausts the shapes of the binary64 values in the goal. *)
Ltac float_cases :=
  unfold SFltb, SFeqb, SFcompare; intros;
  repeat match goal with
  | x : spec_float |- _ => destruct x as [[]|[]| |[] ? ?]
  end;
  try congruence; try (left; reflexivity); try (right; reflexivity);
  cases_compare; subst; cbn in *;
  try congruence; try lia; try (left; reflexivity); try (right; reflexivity).

(** * Properties *)

(** ** Lists *)

Lemma filter_keeps_all {A} (p : A -> bool) (l : list A) :
  (forall x, In x l -> p x = true) -> List.filter p l = l.
Proof.
  induction l as [|a l IH]; intros H; simpl; [reflexivity|].
  rewrite (H a (or_introl eq_refl)). f_equal. apply IH.
  intros x Hx. apply H. now right.
Qed.

Lemma filter_length_le {A} (p : A -> bool) (l : list A) :
  (length (List.filter p l) <= length l)%nat.
Proof.
  induction l as [|a l IH]; simpl; [lia|]. destruct (p a); simpl; lia.
Qed.

Lemma existsb_id_true {A} (f : A -> Z) (l : list A) (k : Z) :
  (exists x, In x l /\ f x = k) -> existsb (fun x => f x =? k) l = true.
Proof.
  intros (x & Hin & Hk). apply existsb_exists. exists x. split; [assumption|].
  now apply Z.eqb_eq.
Qed.

Lemma existsb_id_false {A} (f : A -> Z) (l : list A) (k : Z) :
  (forall x, In x l -> f x <> k) -> existsb (fun x => f x =? k) l = false.
Proof.
  intros H. induction l as [|a l IH]; simpl; [reflexivity|].
  rewrite (proj2 (Z.eqb_neq _ _) (H a (or_introl eq_refl))). simpl.
  apply IH. intros x Hx. apply H. now right.
Qed.

(** With pairwise distinct ids at most one record carries a given id. *)
Lemma filter_out_id_length {A} (f : A -> Z) (l : list A) (k : Z) :
  List.NoDup (map f l) ->
  (length l <= length (List.filter (fun x => negb (f x =? k)%Z) l) + 1)%nat.
Proof.
  induction l as [|a l IH]; simpl; intros Hnd; [lia|].
  apply NoDup_cons_iff in Hnd as [Hnotin Hnd].
  destruct (Z.eqb_spec (f a) k) as [Heq|Hne]; simpl.
  - rewrite filter_keeps_all; [lia|].
    intros x Hx. apply negb_true_iff, Z.eqb_neq. intros Hxk.
    apply Hnotin. rewrite Heq, <- Hxk. now apply in_map.
  - specialize (IH Hnd). lia.
Qed.

(** ** C1: [add_computer] *)

(** C1. Adding a record whose id some record of the collection already
    carries raises the duplicate-identifier [ValueError] and leaves the
    manager as it was (same records, same file, nothing written); adding a
    record with a fresh id appends it at the end and saves. *)
Theorem add_computer_duplicate_or_append
    (m : Computers.ComputerManager) (c : Computers.GamingComputer) :
  ((exists x, In x (Computers.computers m) /\ Computers.id x = Computers.id c) ->
     Computers.add_computer c m
     = (inl (ValueError (Computers.AlreadyExists (Computers.id c))), m, []))
  /\
  ((forall x, In x (Computers.computers m) -> Computers.id x <> Computers.id c) ->
     let cs := Computers.computers m ++ [c] in
     Computers.add_computer c m
     = (inr tt,
        {| Computers.computers := cs;
           Computers.file := Doc (map Computers.to_dict cs) |},
        [Written (map Computers.to_dict cs);
         Printed (Computers.Added (Computers.model c))])).
Proof.
  split; intros H; unfold Computers.add_computer; run_method.
  - rewrite (existsb_id_true Computers.id _ _ H). reflexivity.
  - rewrite (existsb_id_false Computers.id _ _ H). reflexivity.
Qed.

Lemma add_computer_duplicate_or_append_witness :
  Computers.add_computer (pc 1 8 500 false) (shop [pc 1 16 100 false])
  = (inl (ValueError (Computers.AlreadyExists 1)), shop [pc 1 16 100 false], [])
  /\ Computers.computers
       (state_of (Computers.add_computer (pc 2 8 500 false) (shop [pc 1 16 100 false])))
     = [pc 1 16 100 false; pc 2 8 500 false].
Proof.
  split.
  - apply (proj1 (add_computer_duplicate_or_append
                    (shop [pc 1 16 100 false]) (pc 1 8 500 false))).
    exists (pc 1 16 100 false). split; [now left | reflexivity].
  - rewrite (proj2 (add_computer_duplicate_or_append
                      (shop [pc 1 16 100 false]) (pc 2 8 500 false))).
    + reflexivity.
    + intros x [<-|[]]. discriminate.
Defined.

(** ** C6, C8: [delete_by_id] *)

Lemma delete_by_id_run (m : Computers.ComputerManager) (x : Z) :
  let kept := List.filter (fun c => negb (Computers.id c =? x)) (Computers.computers m) in
  Computers.delete_by_id x m
  = if (length kept <? length (Computers.computers m))%nat
    then (inr tt,
          {| Computers.computers := kept;
             Computers.file := Doc (map Computers.to_dict kept) |},
          [Written (map Computers.to_dict kept); Printed (Computers.Deleted x)])
    else (inr tt,
          {| Computers.computers := kept; Computers.file := Computers.file m |},
          [Printed (Computers.NotFound x)]).
Proof.
  unfold Computers.delete_by_id. run_method.
  destruct (_ <? _)%nat; reflexivity.
Qed.

(** C6. Deleting by an id no record carries reports "not found", leaves
    the records and the file as they were, and never calls the write
    primitive. *)
Theorem delete_by_id_absent (m : Computers.ComputerManager) (x : Z) :
  (forall c, In c (Computers.computers m) -> Computers.id c <> x) ->
  Computers.delete_by_id x m = (inr tt, m, [Printed (Computers.NotFound x)])
  /\ writes (trace_of (Computers.delete_by_id x m)) = 0%nat.
Proof.
  intros H.
  assert (Hrun : Computers.delete_by_id x m
                 = (inr tt, m, [Printed (Computers.NotFound x)])).
  { rewrite delete_by_id_run. cbn zeta.
    rewrite filter_keeps_all.
    - rewrite Nat.ltb_irrefl. now destruct m.
    - intros c Hc. apply negb_true_iff, Z.eqb_neq. now apply H. }
  split; [exact Hrun|]. rewrite Hrun. reflexivity.
Qed.

Lemma delete_by_id_absent_witness :
  Computers.delete_by_id 7 (shop [pc 1 16 100 false; pc 2 8 500 false])
  = (inr tt, shop [pc 1 16 100 false; pc 2 8 500 false],
     [Printed (Computers.NotFound 7)])
  /\ writes (trace_of (Computers.delete_by_id 7
                         (shop [pc 1 16 100 false; pc 2 8 500 false]))) = 0%nat.
Proof.
  apply (delete_by_id_absent (shop [pc 1 16 100 false; pc 2 8 500 false]) 7).
  intros c [<-|[<-|[]]]; discriminate.
Defined.

(** C8, as stated, fails: a document may hold two records with one id, and
    [delete_by_id] then drops both. *)
Lemma delete_by_id_removes_two :
  ~ (forall (m : Computers.ComputerManager) (x : Z),
       (length (Computers.computers m)
        <= length (Computers.computers (state_of (Computers.delete_by_id x m))) + 1)%nat).
Proof.
  intros H.
  specialize (H (shop [pc 1 16 100 false; pc 1 8 500 false]) 1).
  vm_compute in H. lia.
Qed.

(** C8, amended. [delete_by_id] keeps exactly the records whose id differs
    from the given one, in their order; when the ids of the collection are
    pairwise distinct this removes at most one record. *)
Theorem delete_by_id_at_most_one (m : Computers.ComputerManager) (x : Z) :
  Computers.computers (state_of (Computers.delete_by_id x m))
  = List.filter (fun c => negb (Computers.id c =? x)) (Computers.computers m)
  /\
  (List.NoDup (map Computers.id (Computers.computers m)) ->
   (length (Computers.computers m)
    <= length (Computers.computers (state_of (Computers.delete_by_id x m))) + 1)%nat).
Proof.
  assert (Hst : Computers.computers (state_of (Computers.delete_by_id x m))
          = List.filter (fun c => negb (Computers.id c =? x)) (Computers.computers m)).
  { rewrite delete_by_id_run. cbn zeta. destruct (_ <? _)%nat; reflexivity. }
  split; [exact Hst|].
  intros Hnd. rewrite Hst. now apply filter_out_id_length.
Qed.

Lemma delete_by_id_at_most_one_witness :
  (length [pc 1 16 100 false; pc 2 8 500 false]
   <= length (Computers.computers
                (state_of (Computers.delete_by_id 1
                             (shop [pc 1 16 100 false; pc 2 8 500 false])))) + 1)%nat.
Proof.
  apply (proj2 (delete_by_id_at_most_one
                  (shop [pc 1 16 100 false; pc 2 8 500 false]) 1)).
  cbn. repeat constructor; cbn; intuition discriminate.
Defined.

(** ** Finding and updating the first record with an id *)

Lemma next_match_app {A} (p : A -> bool) (pre post : list A) (c : A) :
  (forall x, In x pre -> p x = false) -> p c = true ->
  next_match p (pre ++ c :: post) = Some c.
Proof.
  intros Hpre Hc. induction pre as [|a pre IH]; simpl.
  - now rewrite Hc.
  - rewrite (Hpre a (or_introl eq_refl)). apply IH.
    intros x Hx. apply Hpre. now right.
Qed.

Lemma update_first_app {A} (p : A -> bool) (f : A -> A) (pre post : list A) (c : A) :
  (forall x, In x pre -> p x = false) -> p c = true ->
  update_first p f (pre ++ c :: post) = pre ++ f c :: post.
Proof.
  intros Hpre Hc. induction pre as [|a pre IH]; simpl.
  - now rewrite Hc.
  - rewrite (Hpre a (or_introl eq_refl)). f_equal. apply IH.
    intros x Hx. apply Hpre. now right.
Qed.

Lemma next_match_none {A} (p : A -> bool) (l : list A) :
  (forall x, In x l -> p x = false) -> next_match p l = None.
Proof.
  intros H. induction l as [|a l IH]; simpl; [reflexivity|].
  rewrite (H a (or_introl eq_refl)). apply IH. intros x Hx. apply H. now right.
Qed.

Lemma next_match_some {A} (p : A -> bool) (l : list A) (c : A) :
  next_match p l = Some c ->
  exists pre post, l = pre ++ c :: post
                   /\ (forall x, In x pre -> p x = false) /\ p c = true.
Proof.
  induction l as [|a l IH]; simpl; [discriminate|].
  destruct (p a) eqn:Hpa.
  - intros [= <-]. exists [], l. repeat split; [intros x []|assumption].
  - intros H. destruct (IH H) as (pre & post & -> & Hpre & Hc).
    exists (a :: pre), post. repeat split; [|assumption].
    intros x [<-|Hx]; [assumption|now apply Hpre].
Qed.

(** ** C7: [mark_as_sale] *)

(** C7. In a collection whose record with id 1 has price 100 and is not on
    sale, [mark_as_sale 1] turns that record into price 90, flag set, and
    saves; a second [mark_as_sale 1] changes nothing, writes nothing and
    reports that the record is already on sale. *)
Theorem mark_as_sale_once
    (m : Computers.ComputerManager)
    (pre post : list Computers.GamingComputer) (c : Computers.GamingComputer) :
  Computers.computers m = pre ++ c :: post ->
  (forall x, In x pre -> Computers.id x <> 1) ->
  Computers.id c = 1 ->
  Computers.price c = 100%float ->
  Computers.is_on_sale c = false ->
  let cs := pre ++ discounted c :: post in
  let m1 := {| Computers.computers := cs;
               Computers.file := Doc (map Computers.to_dict cs) |} in
  Computers.mark_as_sale 1 m
  = (inr tt, m1,
     [Written (map Computers.to_dict cs);
      Printed (Computers.MarkedOnSale 1 90%float)])
  /\ Computers.mark_as_sale 1 m1
     = (inr tt, m1, [Printed (Computers.AlreadyOnSale 1)]).
Proof.
  intros Hm Hpre Hid Hprice Hsale cs m1.
  assert (Hpre' : forall x, In x pre -> (Computers.id x =? 1) = false).
  { intros x Hx. apply Z.eqb_neq. now apply Hpre. }
  assert (Hc : (Computers.id c =? 1) = true) by now apply Z.eqb_eq.
  assert (Hput : Computers.put_on_sale c = discounted c).
  { unfold Computers.put_on_sale, discounted. rewrite Hprice. reflexivity. }
  split.
  - unfold Computers.mark_as_sale. run_method. rewrite Hm.
    rewrite (next_match_app _ pre post c Hpre' Hc).
    rewrite Hsale. cbn [negb].
    rewrite (update_first_app _ _ pre post c Hpre' Hc).
    rewrite Hput, Hprice. reflexivity.
  - unfold Computers.mark_as_sale. run_method. subst m1 cs. cbn [Computers.computers].
    rewrite (next_match_app _ pre post (discounted c) Hpre'); [reflexivity|].
    cbn. exact Hc.
Qed.

Lemma mark_as_sale_once_witness :
  Computers.mark_as_sale 1 (shop [pc 1 16 100 false])
  = (inr tt, shop [pc 1 16 90 true],
     [Written (map Computers.to_dict [pc 1 16 90 true]);
      Printed (Computers.MarkedOnSale 1 90%float)])
  /\ Computers.mark_as_sale 1 (shop [pc 1 16 90 true])
     = (inr tt, shop [pc 1 16 90 true], [Printed (Computers.AlreadyOnSale 1)]).
Proof.
  apply (mark_as_sale_once (shop [pc 1 16 100 false]) [] [] (pc 1 16 100 false));
    try reflexivity.
  intros x [].
Defined.

(** ** C2: quantity updates *)

(** C2 at its own scenario, for [upgrade_ram]: on a record with 5 GB a
    delta of -10 is not rejected. It is applied and saved, the write
    primitive is called once, and the record is left with -5 GB. *)
Theorem upgrade_ram_goes_negative :
  let m := shop [pc 1 5 100 false] in
  let r := Computers.upgrade_ram 1 (-10) m in
  r = (inr tt, shop [pc 1 (-5) 100 false],
       [Written (map Computers.to_dict [pc 1 (-5) 100 false]);
        Printed (Computers.RamUpgraded 1 (-5))])
  /\ state_of r <> m
  /\ writes (trace_of r) = 1%nat
  /\ Forall (fun c => Computers.ram c < 0) (Computers.computers (state_of r)).
Proof.
  intros m r. split; [reflexivity|]. split; [discriminate|].
  split; [reflexivity|]. repeat constructor.
Qed.

(** [upgrade_ram] has no guard at all: whatever the delta, the first
    record with the id gets it added and the collection is saved. *)
Lemma upgrade_ram_run
    (m : Computers.ComputerManager)
    (pre post : list Computers.GamingComputer) (c : Computers.GamingComputer)
    (x delta : Z) :
  Computers.computers m = pre ++ c :: post ->
  (forall y, In y pre -> Computers.id y <> x) ->
  Computers.id c = x ->
  let cs := pre ++ Computers.add_ram delta c :: post in
  Computers.upgrade_ram x delta m
  = (inr tt,
     {| Computers.computers := cs;
        Computers.file := Doc (map Computers.to_dict cs) |},
     [Written (map Computers.to_dict cs);
      Printed (Computers.RamUpgraded x (Computers.ram c + delta))]).
Proof.
  intros Hm Hpre Hid cs.
  assert (Hpre' : forall y, In y pre -> (Computers.id y =? x) = false).
  { intros y Hy. apply Z.eqb_neq. now apply Hpre. }
  assert (Hc : (Computers.id c =? x) = true) by now apply Z.eqb_eq.
  unfold Computers.upgrade_ram. run_method. rewrite Hm.
  rewrite (next_match_app _ pre post c Hpre' Hc).
  rewrite (update_first_app _ _ pre post c Hpre' Hc). reflexivity.
Qed.

(** The sibling operation of [5.py] does guard: [write_off] refuses any
    amount that is not positive or exceeds the stock, changing and writing
    nothing. *)
Lemma write_off_rejects (m : Inventory.InventoryManager) (x q : Z)
    (item : Inventory.SportsEquipment) :
  next_match (fun i => Inventory.id i =? x) (Inventory.items m) = Some item ->
  q <= 0 \/ Inventory.quantity item - q < 0 ->
  exists msg, Inventory.write_off x q m = (inr false, m, [Printed msg]).
Proof.
  intros Hfind Hbad. unfold Inventory.write_off. run_method. rewrite Hfind.
  destruct (Z.leb_spec q 0) as [Hq|Hq].
  - eexists. reflexivity.
  - destruct (Z.ltb_spec (Inventory.quantity item) q) as [Hlt|Hge].
    + eexists. reflexivity.
    + lia.
Qed.

(** When [write_off] goes through, the remaining stock is not negative. *)
Lemma write_off_accepts (m : Inventory.InventoryManager) (x q : Z)
    (pre post : list Inventory.SportsEquipment) (item : Inventory.SportsEquipment) :
  Inventory.items m = pre ++ item :: post ->
  (forall y, In y pre -> Inventory.id y <> x) ->
  Inventory.id item = x ->
  0 < q <= Inventory.quantity item ->
  Inventory.items (state_of (Inventory.write_off x q m))
  = pre ++ Inventory.take_out q item :: post
  /\ 0 <= Inventory.quantity (Inventory.take_out q item)
  /\ result_of (Inventory.write_off x q m) = inr true.
Proof.
  intros Hm Hpre Hid Hq.
  assert (Hpre' : forall y, In y pre -> (Inventory.id y =? x) = false).
  { intros y Hy. apply Z.eqb_neq. now apply Hpre. }
  assert (Hc : (Inventory.id item =? x) = true) by now apply Z.eqb_eq.
  unfold Inventory.write_off. run_method. rewrite Hm.
  rewrite (next_match_app _ pre post item Hpre' Hc).
  rewrite (proj2 (Z.leb_gt q 0)) by lia.
  rewrite (proj2 (Z.ltb_ge (Inventory.quantity item) q)) by lia.
  rewrite (update_first_app _ _ pre post item Hpre' Hc).
  repeat split.
  - destruct (_ =? 0); reflexivity.
  - cbn. lia.
  - destruct (_ =? 0); reflexivity.
Qed.

(** ** C9: [mark_for_repair] *)

Lemma mark_for_repair_items (m : Inventory.InventoryManager) :
  Inventory.items (state_of (Inventory.mark_for_repair m))
  = map (fun e => if Inventory.repairable e
                  then Inventory.set_condition Inventory.NEEDS_REPAIR e else e)
      (Inventory.items m).
Proof.
  unfold Inventory.mark_for_repair. run_method.
  destruct (map _ (List.filter _ _)); reflexivity.
Qed.

(** C9, as stated, fails: a record in condition "new" is still "new"
    after [mark_for_repair]. *)
Lemma mark_for_repair_keeps_new :
  ~ (forall (m : Inventory.InventoryManager) (i : nat) (e : Inventory.SportsEquipment),
       Inventory.items m !! i = Some e ->
       Inventory.condition e = Inventory.NEW ->
       exists e', Inventory.items (state_of (Inventory.mark_for_repair m)) !! i = Some e'
                  /\ Inventory.condition e' = Inventory.NEEDS_REPAIR).
Proof.
  intros H.
  destruct (H (store [gear 1 5 Inventory.NEW]) 0%nat (gear 1 5 Inventory.NEW)
              eq_refl eq_refl) as (e' & He' & Hcond).
  vm_compute in He'. injection He' as <-. discriminate Hcond.
Qed.

(** C9, amended. [mark_for_repair] moves exactly the records in condition
    "good" or "worn" to "needs repair"; a record in condition "new" stays
    "new" and one already in "needs repair" stays as it is. Nothing else
    of a record changes, and positions are kept. *)
Theorem mark_for_repair_transitions
    (m : Inventory.InventoryManager) (i : nat) (e : Inventory.SportsEquipment) :
  Inventory.items m !! i = Some e ->
  Inventory.items (state_of (Inventory.mark_for_repair m)) !! i
  = Some (Inventory.set_condition
            match Inventory.condition e with
            | Inventory.NEW => Inventory.NEW
            | Inventory.GOOD | Inventory.WORN | Inventory.NEEDS_REPAIR =>
                Inventory.NEEDS_REPAIR
            end e).
Proof.
  intros Hi. rewrite mark_for_repair_items, list_lookup_fmap, Hi. cbn.
  f_equal. destruct e as [? ? ? ? ? ? []]; reflexivity.
Qed.

Lemma mark_for_repair_transitions_witness :
  Inventory.items
    (state_of (Inventory.mark_for_repair
                 (store [gear 1 5 Inventory.NEW; gear 2 3 Inventory.WORN]))) !! 1%nat
  = Some (gear 2 3 Inventory.NEEDS_REPAIR).
Proof.
  exact (mark_for_repair_transitions
           (store [gear 1 5 Inventory.NEW; gear 2 3 Inventory.WORN]) 1
           (gear 2 3 Inventory.WORN) eq_refl).
Defined.

(** ** C3: serialization round trip *)

Lemma computers_from_to_dict (c : Computers.GamingComputer) :
  Computers.from_dict (Computers.to_dict c) = inr c.
Proof. destruct c. reflexivity. Qed.

Lemma movies_from_to_dict (m : Movies.Movie) :
  Movies.from_dict (Movies.to_dict m) = inr m.
Proof. destruct m. reflexivity. Qed.

Lemma condition_of_value_of (c : Inventory.Condition) :
  Inventory.condition_of (VStr (Inventory.value_of c)) = c.
Proof. destruct c; reflexivity. Qed.

Lemma inventory_from_to_dict (e : Inventory.SportsEquipment) :
  Inventory.from_dict (Inventory.to_dict e) = inr e.
Proof. destruct e as [? ? ? ? ? ? []]; reflexivity. Qed.

Lemma mapE_roundtrip {E A} (ser : A -> dict) (de : dict -> E + A) (l : list A) :
  (forall a, de (ser a) = inr a) -> mapE de (map ser l) = inr l.
Proof.
  intros H. induction l as [|a l IH]; simpl; [reflexivity|].
  now rewrite H, IH.
Qed.

Lemma computers_save_load (m : Computers.ComputerManager) :
  Computers.init (Computers.file (state_of (Computers.save_data m)))
  = (inr tt,
     {| Computers.computers := Computers.computers m;
        Computers.file := Doc (map Computers.to_dict (Computers.computers m)) |},
     [Printed (Computers.Loaded (length (Computers.computers m)))]).
Proof.
  unfold Computers.init, Computers.load_data. run_method. cbn.
  rewrite (mapE_roundtrip _ _ _ computers_from_to_dict). reflexivity.
Qed.

Lemma movies_save_load (m : Movies.MovieManager) :
  Movies.init (Movies.file (state_of (Movies.save_data m)))
  = (inr tt,
     {| Movies.movies := Movies.movies m;
        Movies.file := Doc (map Movies.to_dict (Movies.movies m)) |},
     [Printed (Movies.Loaded (length (Movies.movies m)))]).
Proof.
  unfold Movies.init, Movies.load_data. run_method. cbn.
  rewrite (mapE_roundtrip _ _ _ movies_from_to_dict). reflexivity.
Qed.

Lemma inventory_save_load (m : Inventory.InventoryManager) :
  Inventory.init (Inventory.file (state_of (Inventory.save_data m)))
  = (inr tt,
     {| Inventory.items := Inventory.items m;
        Inventory.file := Doc (map Inventory.to_dict (Inventory.items m)) |},
     [Printed (Inventory.Loaded (length (Inventory.items m)))]).
Proof.
  unfold Inventory.init, Inventory.load_data. run_method. cbn.
  rewrite (mapE_roundtrip _ _ _ inventory_from_to_dict). reflexivity.
Qed.

(** C3. Rebuilding the records from the objects [to_dict] produced gives
    back the same records in the same order, for the computers, the
    inventory and the movies; hence a manager constructed on the file that
    [save_data] wrote holds the collection that was saved, and so does one
    constructed after a successful [add_computer] followed by a save. *)
Theorem serialization_roundtrip :
  (forall cs, mapE Computers.from_dict (map Computers.to_dict cs) = inr cs)
  /\ (forall l, mapE Inventory.from_dict (map Inventory.to_dict l) = inr l)
  /\ (forall ms, mapE Movies.from_dict (map Movies.to_dict ms) = inr ms)
  /\ (forall m,
        Computers.computers
          (state_of (Computers.init (Computers.file (state_of (Computers.save_data m)))))
        = Computers.computers m)
  /\ (forall m,
        Inventory.items
          (state_of (Inventory.init (Inventory.file (state_of (Inventory.save_data m)))))
        = Inventory.items m)
  /\ (forall m,
        Movies.movies
          (state_of (Movies.init (Movies.file (state_of (Movies.save_data m)))))
        = Movies.movies m)
  /\ (forall m c,
        result_of (Computers.add_computer c m) = inr tt ->
        let m1 := state_of (Computers.add_computer c m) in
        Computers.computers m1 = Computers.computers m ++ [c]
        /\ Computers.computers
             (state_of (Computers.init
                          (Computers.file (state_of (Computers.save_data m1)))))
           = Computers.computers m1).
Proof.
  refine (conj _ (conj _ (conj _ (conj _ (conj _ (conj _ _)))))).
  - intros cs. apply mapE_roundtrip, computers_from_to_dict.
  - intros l. apply mapE_roundtrip, inventory_from_to_dict.
  - intros ms. apply mapE_roundtrip, movies_from_to_dict.
  - intros m. now rewrite computers_save_load.
  - intros m. now rewrite inventory_save_load.
  - intros m. now rewrite movies_save_load.
  - intros m c H m1. split.
    + revert H. unfold m1, Computers.add_computer. run_method.
      destruct (existsb _ _); [discriminate|reflexivity].
    + now rewrite computers_save_load.
Qed.

Lemma serialization_roundtrip_witness :
  Computers.computers
    (state_of (Computers.init
       (Computers.file
          (state_of (Computers.save_data
             (state_of (Computers.add_computer (pc 2 8 500 false)
                          (shop [pc 1 16 100 false]))))))))
  = [pc 1 16 100 false; pc 2 8 500 false].
Proof.
  destruct serialization_roundtrip as (_ & _ & _ & _ & _ & _ & H).
  destruct (H (shop [pc 1 16 100 false]) (pc 2 8 500 false) eq_refl) as [H1 H2].
  rewrite H2. exact H1.
Defined.

(** ** C10: defaults of [from_dict] *)

(** C10. When the required keys are present with values of their field
    types, an object without ["is_on_sale"] (computers) or ["is_epic"]
    (movies) is rebuilt with the flag [false], and an inventory object
    whose ["condition"] is the value of no member of [Condition] is
    rebuilt in condition [GOOD]; none of the three raises. *)
Theorem from_dict_defaults :
  (forall data i m p r s g pr,
     get_int (Msg := Computers.message) data "id" = inr i ->
     get_str (Msg := Computers.message) data "model" = inr m ->
     get_str (Msg := Computers.message) data "processor" = inr p ->
     get_int (Msg := Computers.message) data "ram" = inr r ->
     get_int (Msg := Computers.message) data "ssd" = inr s ->
     get_str (Msg := Computers.message) data "graphics_card" = inr g ->
     get_float (Msg := Computers.message) data "price" = inr pr ->
     data !! "is_on_sale" = None ->
     Computers.from_dict data
     = inr {| Computers.id := i; Computers.model := m; Computers.processor := p;
              Computers.ram := r; Computers.ssd := s; Computers.graphics_card := g;
              Computers.price := pr; Computers.is_on_sale := false |})
  /\
  (forall data i t y g d r p,
     get_int (Msg := Movies.message) data "id" = inr i ->
     get_str (Msg := Movies.message) data "title" = inr t ->
     get_int (Msg := Movies.message) data "year" = inr y ->
     get_str (Msg := Movies.message) data "genre" = inr g ->
     get_int (Msg := Movies.message) data "duration" = inr d ->
     get_float (Msg := Movies.message) data "rating" = inr r ->
     get_float (Msg := Movies.message) data "price" = inr p ->
     data !! "is_epic" = None ->
     Movies.from_dict data
     = inr {| Movies.id := i; Movies.title := t; Movies.year := y; Movies.genre := g;
              Movies.duration := d; Movies.rating := r; Movies.price := p;
              Movies.is_epic := false |})
  /\
  (forall data v i n s w p q,
     data !! "condition" = Some v ->
     (forall c, v <> VStr (Inventory.value_of c)) ->
     get_int (Msg := Inventory.message) data "id" = inr i ->
     get_str (Msg := Inventory.message) data "name" = inr n ->
     get_str (Msg := Inventory.message) data "sport_type" = inr s ->
     get_float (Msg := Inventory.message) data "weight" = inr w ->
     get_float (Msg := Inventory.message) data "price" = inr p ->
     get_int (Msg := Inventory.message) data "quantity" = inr q ->
     Inventory.from_dict data
     = inr {| Inventory.id := i; Inventory.name := n; Inventory.sport_type := s;
              Inventory.weight := w; Inventory.price := p; Inventory.quantity := q;
              Inventory.condition := Inventory.GOOD |}).
Proof.
  refine (conj _ (conj _ _)).
  - intros data i m p r s g pr H1 H2 H3 H4 H5 H6 H7 H8.
    unfold Computers.from_dict, get_bool_default.
    rewrite H1, H2, H3, H4, H5, H6, H7, H8. reflexivity.
  - intros data i t y g d r p H1 H2 H3 H4 H5 H6 H7 H8.
    unfold Movies.from_dict, get_bool_default.
    rewrite H1, H2, H3, H4, H5, H6, H7, H8. reflexivity.
  - intros data v i n s w p q Hc Hv H1 H2 H3 H4 H5 H6.
    unfold Inventory.from_dict, getitem.
    rewrite Hc, H1, H2, H3, H4, H5, H6. cbn.
    assert (Hgood : Inventory.condition_of v = Inventory.GOOD).
    { unfold Inventory.condition_of.
      rewrite next_match_none; [reflexivity|].
      intros c _. destruct v as [| |s'| |]; try reflexivity.
      unfold Inventory.value_matches. apply String.eqb_neq.
      intros Heq. apply (Hv c). now rewrite Heq. }
    now rewrite Hgood.
Qed.

Lemma from_dict_defaults_witness :
  Computers.from_dict bare_computer = inr (pc 7 16 100 false)
  /\ Movies.from_dict bare_movie
     = inr {| Movies.id := 7; Movies.title := "Film"; Movies.year := 1999;
              Movies.genre := "drama"; Movies.duration := 120; Movies.rating := 8.5;
              Movies.price := 300; Movies.is_epic := false |}
  /\ Inventory.from_dict odd_gear = inr (gear 7 4 Inventory.GOOD).
Proof.
  destruct from_dict_defaults as (Hc & Hm & Hi).
  split; [|split].
  - apply (Hc bare_computer); reflexivity.
  - apply (Hm bare_movie); reflexivity.
  - apply (Hi odd_gear (VStr "broken")); try reflexivity.
    intros []; discriminate.
Defined.

(** ** C4: searching *)

Lemma criterion_adds {V A} (test : V -> A -> bool) (o o' : option V) (x : A) :
  adds o o' -> criterion test o' x = true -> criterion test o x = true.
Proof. intros [->| ->]; [reflexivity|exact id]. Qed.

Lemma filter_filter_and {A} (p q : A -> bool) (l : list A) :
  List.filter p (List.filter q l) = List.filter (fun x => q x && p x) l.
Proof.
  induction l as [|a l IH]; simpl; [reflexivity|].
  destruct (q a); simpl; [destruct (p a)|]; now rewrite IH.
Qed.

Lemma filter_sublist_impl {A} (p p' : A -> bool) (l : list A) :
  (forall x, p' x = true -> p x = true) ->
  sublist (List.filter p' l) (List.filter p l).
Proof.
  intros H. induction l as [|a l IH]; simpl; [constructor|].
  destruct (p' a) eqn:Hp'.
  - rewrite (H a Hp'). now constructor.
  - destruct (p a); [now constructor|assumption].
Qed.

Lemma optional_filter {V A} (test : V -> A -> bool) (o : option V) (l : list A) :
  match o with Some v => List.filter (test v) l | None => l end
  = List.filter (criterion test o) l.
Proof.
  destruct o; simpl; [reflexivity|].
  symmetry. now apply filter_keeps_all.
Qed.

Lemma optional_text_filter {A} (lower : string -> string) (field : A -> string)
    (o : option string) (l : list A) :
  match o with
  | Some g =>
      if str_truthy g
      then List.filter (fun x => str_in (lower g) (lower (field x))) l
      else l
  | None => l
  end
  = List.filter (text_criterion lower field o) l.
Proof.
  destruct o as [g|]; unfold text_criterion; simpl.
  - destruct (str_truthy g); [reflexivity|].
    symmetry. now apply filter_keeps_all.
  - symmetry. now apply filter_keeps_all.
Qed.

Lemma search_by_criteria_run (lower : string -> string)
    (m : Computers.ComputerManager) a b c d :
  Computers.search_by_criteria lower a b c d m
  = (inr (List.filter (computer_meets lower a b c d) (Computers.computers m)), m, []).
Proof.
  unfold Computers.search_by_criteria. run_method.
  rewrite (optional_filter (fun v c => Computers.ram c >=? v) a).
  rewrite (optional_filter (fun v c => PrimFloat.leb (Computers.price c) v) b).
  rewrite (optional_filter (fun v c => Computers.ssd c >=? v) c).
  rewrite (optional_text_filter lower Computers.graphics_card d).
  rewrite !filter_filter_and.
  do 3 f_equal. apply filter_ext. intros x. unfold computer_meets.
  now rewrite !andb_assoc.
Qed.

Lemma search_by_year_range_and_genre_run (lower : string -> string)
    (m : Movies.MovieManager) a b c :
  Movies.search_by_year_range_and_genre lower a b c m
  = (inr (List.filter (movie_meets lower a b c) (Movies.movies m)), m, []).
Proof.
  unfold Movies.search_by_year_range_and_genre. run_method.
  rewrite (optional_filter (fun v m => Movies.year m >=? v) a).
  rewrite (optional_filter (fun v m => Movies.year m <=? v) b).
  rewrite (optional_text_filter lower Movies.genre c).
  rewrite !filter_filter_and.
  do 3 f_equal. apply filter_ext. intros x. unfold movie_meets.
  now rewrite !andb_assoc.
Qed.

(** C4. A search leaves the manager as it is and writes nothing. With all
    criteria omitted it returns the whole collection; in general it
    returns, in collection order, the records meeting every given
    criterion; and giving a query more criteria yields a subsequence of
    what it returned before, so never more records. Stated for
    [search_by_criteria] and [search_by_year_range_and_genre], for any
    [str.lower]. *)
Theorem search_narrows (lower : string -> string) :
  (forall m,
     Computers.search_by_criteria lower None None None None m
     = (inr (Computers.computers m), m, []))
  /\ (forall m a b c d,
        Computers.search_by_criteria lower a b c d m
        = (inr (List.filter (computer_meets lower a b c d) (Computers.computers m)),
           m, []))
  /\ (forall m a b c d a' b' c' d',
        adds a a' -> adds b b' -> adds c c' -> adds d d' ->
        exists l l',
          Computers.search_by_criteria lower a b c d m = (inr l, m, [])
          /\ Computers.search_by_criteria lower a' b' c' d' m = (inr l', m, [])
          /\ sublist l' l /\ (length l' <= length l)%nat)
  /\ (forall m,
        Movies.search_by_year_range_and_genre lower None None None m
        = (inr (Movies.movies m), m, []))
  /\ (forall m a b c,
        Movies.search_by_year_range_and_genre lower a b c m
        = (inr (List.filter (movie_meets lower a b c) (Movies.movies m)), m, []))
  /\ (forall m a b c a' b' c',
        adds a a' -> adds b b' -> adds c c' ->
        exists l l',
          Movies.search_by_year_range_and_genre lower a b c m = (inr l, m, [])
          /\ Movies.search_by_year_range_and_genre lower a' b' c' m = (inr l', m, [])
          /\ sublist l' l /\ (length l' <= length l)%nat).
Proof.
  refine (conj _ (conj _ (conj _ (conj _ (conj _ _))))).
  - intros m. reflexivity.
  - intros. apply search_by_criteria_run.
  - intros m a b c d a' b' c' d' Ha Hb Hc Hd.
    do 2 eexists. rewrite !search_by_criteria_run.
    split; [reflexivity|]. split; [reflexivity|].
    assert (Hsub : sublist
              (List.filter (computer_meets lower a' b' c' d') (Computers.computers m))
              (List.filter (computer_meets lower a b c d) (Computers.computers m))).
    { apply filter_sublist_impl. intros x. unfold computer_meets, text_criterion.
      rewrite !andb_true_iff. intros [[[H1 H2] H3] H4].
      repeat split; eapply criterion_adds; eassumption. }
    split; [exact Hsub|]. now apply sublist_length.
  - intros m. reflexivity.
  - intros. apply search_by_year_range_and_genre_run.
  - intros m a b c a' b' c' Ha Hb Hc.
    do 2 eexists. rewrite !search_by_year_range_and_genre_run.
    split; [reflexivity|]. split; [reflexivity|].
    assert (Hsub : sublist
              (List.filter (movie_meets lower a' b' c') (Movies.movies m))
              (List.filter (movie_meets lower a b c) (Movies.movies m))).
    { apply filter_sublist_impl. intros x. unfold movie_meets, text_criterion.
      rewrite !andb_true_iff. intros [[H1 H2] H3].
      repeat split; eapply criterion_adds; eassumption. }
    split; [exact Hsub|]. now apply sublist_length.
Qed.

Lemma search_narrows_witness :
  exists l l',
    Computers.search_by_criteria (fun s => s) (Some 8) None None None
      (shop [pc 1 16 100 false; pc 2 8 500 false; pc 3 4 50 false])
    = (inr l, shop [pc 1 16 100 false; pc 2 8 500 false; pc 3 4 50 false], [])
    /\ Computers.search_by_criteria (fun s => s) (Some 8) (Some 200%float) None None
         (shop [pc 1 16 100 false; pc 2 8 500 false; pc 3 4 50 false])
       = (inr l', shop [pc 1 16 100 false; pc 2 8 500 false; pc 3 4 50 false], [])
    /\ sublist l' l /\ (length l' <= length l)%nat.
Proof.
  destruct (search_narrows (fun s => s)) as (_ & _ & H & _).
  apply (H (shop [pc 1 16 100 false; pc 2 8 500 false; pc 3 4 50 false])
           (Some 8) None None None (Some 8) (Some 200%float) None None).
  - now right.
  - now left.
  - now left.
  - now left.
Defined.

(** ** C5: sorting

    [sorted] is studied for any key and any [<] on keys that is
    irreflexive and transitive, and for which every key of the domain
    [dom] splits any strict pair: if [a < b] then [a < c] or [c < b].
    On integers [dom] is everything; on floats it excludes NaN, for which
    the runtime promises no particular order either. *)
Section SortedFacts.
Context {A K : Type} (key : A -> K) (lt : K -> K -> bool) (dom : K -> Prop).
Hypothesis lt_irrefl : forall a, lt a a = false.
Hypothesis lt_trans : forall a b c, lt a b = true -> lt b c = true -> lt a c = true.
Hypothesis lt_split :
  forall a b c, dom c -> lt a b = true -> lt a c = true \/ lt c b = true.

Lemma lt_asym a b : lt a b = true -> lt b a = false.
Proof.
  intros Hab. destruct (lt b a) eqn:Hba; [|reflexivity].
  rewrite <- (lt_irrefl a). symmetry. now apply lt_trans with b.
Qed.

Lemma insert_sorted_perm x l : Permutation (insert_sorted key lt x l) (x :: l).
Proof.
  induction l as [|y l IH]; simpl; [reflexivity|].
  destruct (lt (key x) (key y)); [reflexivity|].
  rewrite IH. apply perm_swap.
Qed.

Lemma list_sort_snoc l x :
  list_sort key lt (l ++ [x]) = insert_sorted key lt x (list_sort key lt l).
Proof. unfold list_sort. now rewrite fold_left_app. Qed.

Lemma list_sort_perm l : Permutation (list_sort key lt l) l.
Proof.
  induction l as [|x l IH] using rev_ind; [reflexivity|].
  rewrite list_sort_snoc, insert_sorted_perm, IH.
  apply Permutation_cons_append.
Qed.

Lemma insert_sorted_ordered x l :
  StronglySorted (not_after key lt) l -> StronglySorted (not_after key lt) (insert_sorted key lt x l).
Proof.
  induction 1 as [|y l Hl IH Hy]; simpl.
  - repeat constructor.
  - destruct (lt (key x) (key y)) eqn:Hxy.
    + constructor; [now constructor|].
      constructor; [now apply lt_asym|].
      eapply List.Forall_impl; [|exact Hy]. intros z Hz. unfold not_after in *.
      destruct (lt (key z) (key x)) eqn:Hzx; [|reflexivity].
      rewrite <- Hz. symmetry. now apply lt_trans with (key x).
    + constructor; [assumption|].
      eapply Permutation_Forall; [symmetry; apply insert_sorted_perm|].
      now constructor.
Qed.

Lemma list_sort_ordered l : StronglySorted (not_after key lt) (list_sort key lt l).
Proof.
  induction l as [|x l IH] using rev_ind; [constructor|].
  rewrite list_sort_snoc. now apply insert_sorted_ordered.
Qed.

(** *** Stability *)

Lemma with_key_insert_other k x l :
  key_equal lt k (key x) = false ->
  with_key key lt k (insert_sorted key lt x l) = with_key key lt k l.
Proof.
  intros Hx. unfold with_key. induction l as [|y l IH]; simpl.
  - now rewrite Hx.
  - destruct (lt (key x) (key y)); simpl.
    + now rewrite Hx.
    + now rewrite IH.
Qed.

Lemma with_key_none k l :
  (forall z, In z l -> key_equal lt k (key z) = false) -> with_key key lt k l = [].
Proof.
  intros H. unfold with_key. induction l as [|y l IH]; simpl; [reflexivity|].
  rewrite (H y (or_introl eq_refl)). apply IH. intros z Hz. apply H. now right.
Qed.

Lemma with_key_cons k x l :
  with_key key lt k (x :: l)
  = if key_equal lt k (key x) then x :: with_key key lt k l else with_key key lt k l.
Proof. reflexivity. Qed.

Lemma with_key_insert_same k x l :
  dom k -> Forall (in_dom key dom) l -> key_equal lt k (key x) = true ->
  StronglySorted (not_after key lt) l ->
  with_key key lt k (insert_sorted key lt x l) = with_key key lt k l ++ [x].
Proof.
  intros Hk Hdom Hx Hs. induction Hs as [|y l Hl IH Hy]; cbn [insert_sorted].
  - now rewrite with_key_cons, Hx.
  - apply List.Forall_cons_iff in Hdom as [Hdy Hdl].
    destruct (lt (key x) (key y)) eqn:Hxy.
    + assert (Hnone : with_key key lt k (y :: l) = []).
      { apply with_key_none. intros z Hz.
        assert (Hzd : dom (key z)).
        { destruct Hz as [<-|Hz]; [assumption|].
          now apply (proj1 (List.Forall_forall _ _) Hdl). }
        assert (Hzy : lt (key z) (key y) = false).
        { destruct Hz as [<-|Hz]; [apply lt_irrefl|].
          now apply (proj1 (List.Forall_forall _ _) Hy). }
        apply andb_true_iff in Hx as [Hkx Hxk].
        apply negb_true_iff in Hkx, Hxk.
        destruct (lt_split _ _ (key z) Hzd Hxy) as [Hxz|Hzy']; [|congruence].
        destruct (lt_split _ _ k Hk Hxz) as [Hxk'|Hkz]; [congruence|].
        unfold key_equal. now rewrite Hkz. }
      now rewrite with_key_cons, Hx, Hnone.
    + rewrite !with_key_cons, (IH Hdl).
      now destruct (key_equal lt k (key y)).
Qed.

Lemma list_sort_stable k l :
  dom k -> Forall (in_dom key dom) l ->
  with_key key lt k (list_sort key lt l) = with_key key lt k l.
Proof.
  intros Hk. induction l as [|x l IH] using rev_ind; intros Hdom; [reflexivity|].
  apply List.Forall_app in Hdom as [Hdl Hdx].
  rewrite list_sort_snoc.
  assert (Hfilter : with_key key lt k (l ++ [x])
                    = with_key key lt k l
                      ++ (if key_equal lt k (key x) then [x] else [])).
  { unfold with_key. rewrite List.filter_app. simpl.
    now destruct (key_equal lt k (key x)). }
  rewrite Hfilter.
  destruct (key_equal lt k (key x)) eqn:Hx.
  - rewrite with_key_insert_same; try assumption.
    + now rewrite IH.
    + eapply Permutation_Forall; [symmetry; apply list_sort_perm|assumption].
    + apply list_sort_ordered.
  - rewrite with_key_insert_other by assumption.
    rewrite app_nil_r. now apply IH.
Qed.

Lemma sorted_stable (reverse : bool) k l :
  dom k -> Forall (in_dom key dom) l ->
  with_key key lt k (sorted key lt reverse l) = with_key key lt k l.
Proof.
  intros Hk Hdom. destruct reverse; simpl.
  - unfold with_key. rewrite List.filter_rev.
    fold (with_key key lt k (list_sort key lt (rev l))).
    rewrite list_sort_stable; [|assumption|now apply List.Forall_rev].
    unfold with_key. now rewrite List.filter_rev, rev_involutive.
  - now apply list_sort_stable.
Qed.

(** *** The two directions on distinct keys *)

Lemma comparable_sym a b : comparable key lt a b -> comparable key lt b a.
Proof. unfold comparable. tauto. Qed.

Lemma distinct_keys_perm l l' :
  Permutation l l' -> distinct_keys key lt l -> distinct_keys key lt l'.
Proof.
  unfold distinct_keys. induction 1 as [|x l l' Hp IH|x y l|l l' l'' _ IH1 _ IH2].
  - trivial.
  - intros H. inversion H as [|? ? Hx Hl]; subst. constructor.
    + eapply Permutation_Forall; eassumption.
    + now apply IH.
  - intros H. inversion H as [|? ? Hy Hl]; subst.
    inversion Hl as [|? ? Hx Hl']; subst.
    apply List.Forall_cons_iff in Hy as [Hyx Hy].
    constructor; [|now constructor].
    constructor; [now apply comparable_sym|assumption].
  - intros H. now apply IH2, IH1.
Qed.

Lemma strictly_sorted l :
  StronglySorted (not_after key lt) l -> distinct_keys key lt l -> StronglySorted (before key lt) l.
Proof.
  induction 1 as [|x l Hl IH Hx]; intros Hd; [constructor|].
  inversion Hd as [|? ? Hcx Hdl]; subst.
  constructor; [now apply IH|].
  apply List.Forall_forall. intros z Hz.
  pose proof (proj1 (List.Forall_forall _ _) Hx z Hz) as Hzx.
  pose proof (proj1 (List.Forall_forall _ _) Hcx z Hz) as [Hlt|Hlt].
  - exact Hlt.
  - unfold not_after in Hzx. congruence.
Qed.

Lemma list_sort_rev l :
  distinct_keys key lt l -> list_sort key lt (rev l) = list_sort key lt l.
Proof.
  intros Hd.
  assert (Hp : Permutation (list_sort key lt (rev l)) (list_sort key lt l)).
  { rewrite !list_sort_perm. symmetry. apply Permutation_rev. }
  apply (StronglySorted_unique_strong (before key lt)).
  - intros x1 x2 _ _ H12 H21. unfold before in *.
    rewrite (lt_asym _ _ H12) in H21. discriminate.
  - apply strictly_sorted; [apply list_sort_ordered|].
    eapply distinct_keys_perm; [|exact Hd].
    symmetry. rewrite list_sort_perm. symmetry. apply Permutation_rev.
  - apply strictly_sorted; [apply list_sort_ordered|].
    eapply distinct_keys_perm; [|exact Hd].
    symmetry. apply list_sort_perm.
  - exact Hp.
Qed.

Lemma sorted_reverse l :
  distinct_keys key lt l ->
  sorted key lt true l = rev (sorted key lt false l).
Proof. intros Hd. simpl. now rewrite list_sort_rev. Qed.

End SortedFacts.

(** *** Integer keys *)

Lemma Z_ltb_trans (a b c : Z) : (a <? b) = true -> (b <? c) = true -> (a <? c) = true.
Proof. rewrite !Z.ltb_lt. lia. Qed.

Lemma Z_ltb_split (a b c : Z) :
  True -> (a <? b) = true -> (a <? c) = true \/ (c <? b) = true.
Proof. rewrite !Z.ltb_lt. lia. Qed.

Lemma Z_key_equal (k k' : Z) : key_equal Z.ltb k k' = (k' =? k).
Proof.
  unfold key_equal.
  destruct (Z.ltb_spec k k'), (Z.ltb_spec k' k), (Z.eqb_spec k' k);
    simpl; try reflexivity; lia.
Qed.

Lemma NoDup_distinct_keys {A} (key : A -> Z) (l : list A) :
  List.NoDup (map key l) -> distinct_keys key Z.ltb l.
Proof.
  unfold distinct_keys. induction l as [|a l IH]; simpl; intros Hnd; [constructor|].
  apply NoDup_cons_iff in Hnd as [Hnotin Hnd].
  constructor; [|now apply IH].
  apply List.Forall_forall. intros b Hb. unfold comparable. rewrite !Z.ltb_lt.
  assert (key a <> key b).
  { intros Heq. apply Hnotin. rewrite Heq. now apply in_map. }
  lia.
Qed.

(** *** Float keys

    [<] and [==] on binary64 values, through their specification: NaN is
    the only value that is unordered. *)

Lemma SFltb_irrefl x : SFltb x x = false.
Proof. revert x. float_cases. Qed.

Lemma SFltb_trans x y z :
  SFltb x y = true -> SFltb y z = true -> SFltb x z = true.
Proof. revert x y z. float_cases. Qed.

Lemma SFltb_split x y z :
  z <> S754_nan -> SFltb x y = true -> SFltb x z = true \/ SFltb z y = true.
Proof. revert x y z. float_cases. Qed.

Lemma SFeqb_ltb x y :
  x <> S754_nan -> y <> S754_nan ->
  SFeqb x y = negb (SFltb y x) && negb (SFltb x y).
Proof. revert x y. float_cases. Qed.

Lemma SFeqb_refl_iff x : SFeqb x x = true <-> x <> S754_nan.
Proof. split; revert x; float_cases. Qed.

Lemma SFeqb_nan_r x : SFeqb x S754_nan = false.
Proof. revert x. float_cases. Qed.

Lemma not_nan_spec p : not_nan p <-> Prim2SF p <> S754_nan.
Proof.
  unfold not_nan, is_nan. rewrite FloatAxioms.eqb_spec. split; intros H.
  - apply SFeqb_refl_iff. now apply negb_false_iff.
  - apply negb_false_iff. now apply SFeqb_refl_iff.
Qed.

Lemma float_ltb_irrefl (a : float) : (a <? a)%float = false.
Proof. rewrite FloatAxioms.ltb_spec. apply SFltb_irrefl. Qed.

Lemma float_ltb_trans (a b c : float) :
  (a <? b)%float = true -> (b <? c)%float = true -> (a <? c)%float = true.
Proof. rewrite !FloatAxioms.ltb_spec. apply SFltb_trans. Qed.

Lemma float_ltb_split (a b c : float) :
  not_nan c -> (a <? b)%float = true ->
  (a <? c)%float = true \/ (c <? b)%float = true.
Proof. rewrite not_nan_spec, !FloatAxioms.ltb_spec. apply SFltb_split. Qed.

Lemma float_key_equal (k p : float) :
  not_nan k -> not_nan p -> key_equal PrimFloat.ltb k p = (p =? k)%float.
Proof.
  rewrite !not_nan_spec. intros Hk Hp. unfold key_equal.
  rewrite FloatAxioms.eqb_spec, !FloatAxioms.ltb_spec. symmetry. now apply SFeqb_ltb.
Qed.

Lemma float_eqb_nan (k p : float) : ~ not_nan k -> (p =? k)%float = false.
Proof.
  rewrite not_nan_spec, FloatAxioms.eqb_spec. intros Hk.
  destruct (Prim2SF k); try (exfalso; apply Hk; discriminate).
  apply SFeqb_nan_r.
Qed.

Lemma float_distinct_keys {A} (key : A -> float) (l : list A) :
  Forall (fun a => not_nan (key a)) l ->
  ForallOrdPairs (fun a b => (key a =? key b)%float = false) l ->
  distinct_keys key PrimFloat.ltb l.
Proof.
  unfold distinct_keys. intros Hnn Hd.
  induction Hd as [|a l Ha Hl IH]; [constructor|].
  apply List.Forall_cons_iff in Hnn as [Hna Hnl].
  constructor; [|now apply IH].
  apply List.Forall_forall. intros b Hb.
  pose proof (proj1 (List.Forall_forall _ _) Ha b Hb) as Hab.
  pose proof (proj1 (List.Forall_forall _ _) Hnl b Hb) as Hnb.
  cbv beta in Hab, Hnb.
  rewrite <- (float_key_equal (key b) (key a) Hnb Hna) in Hab.
  unfold key_equal in Hab. unfold comparable.
  destruct (key b <? key a)%float, (key a <? key b)%float; auto; discriminate.
Qed.

(** *** The sorts of the managers *)

Lemma sorted_perm {A K} (key : A -> K) (lt : K -> K -> bool) (reverse : bool) l :
  Permutation (sorted key lt reverse l) l.
Proof.
  destruct reverse; simpl.
  - rewrite <- Permutation_rev, list_sort_perm. symmetry. apply Permutation_rev.
  - apply list_sort_perm.
Qed.

Lemma filter_none {A} (p : A -> bool) (l : list A) :
  (forall a, In a l -> p a = false) -> List.filter p l = [].
Proof.
  intros H. induction l as [|a l IH]; simpl; [reflexivity|].
  rewrite (H a (or_introl eq_refl)). apply IH. intros b Hb. apply H. now right.
Qed.

Lemma sorted_Z_stable {A} (key : A -> Z) (reverse : bool) (d : Z) (l : list A) :
  List.filter (fun a => key a =? d) (sorted key Z.ltb reverse l)
  = List.filter (fun a => key a =? d) l.
Proof.
  pose proof (sorted_stable key Z.ltb (fun _ => True)
                Z.ltb_irrefl Z_ltb_trans Z_ltb_split reverse d l I) as H.
  unfold with_key in H.
  rewrite (filter_ext _ (fun a => key_equal Z.ltb d (key a))).
  - rewrite H.
    + apply filter_ext. intros a. apply Z_key_equal.
    + apply List.Forall_forall. intros a _. exact I.
  - intros a. symmetry. apply Z_key_equal.
Qed.

Lemma sorted_Z_reverse {A} (key : A -> Z) (l : list A) :
  List.NoDup (map key l) ->
  sorted key Z.ltb true l = rev (sorted key Z.ltb false l).
Proof.
  intros H. apply sorted_reverse.
  - apply Z.ltb_irrefl.
  - apply Z_ltb_trans.
  - now apply NoDup_distinct_keys.
Qed.

Lemma sorted_float_stable {A} (key : A -> float) (reverse : bool) (p : float)
    (l : list A) :
  Forall (fun a => not_nan (key a)) l ->
  List.filter (fun a => (key a =? p)%float) (sorted key PrimFloat.ltb reverse l)
  = List.filter (fun a => (key a =? p)%float) l.
Proof.
  intros Hnn.
  assert (Hnn' : Forall (fun a => not_nan (key a)) (sorted key PrimFloat.ltb reverse l)).
  { eapply Permutation_Forall; [symmetry; apply sorted_perm|assumption]. }
  destruct (is_nan p) eqn:Hp.
  - assert (Hnan : ~ not_nan p) by (unfold not_nan; congruence).
    rewrite !filter_none; [reflexivity| |];
      intros a _; now apply float_eqb_nan.
  - pose proof (sorted_stable key PrimFloat.ltb not_nan
                  float_ltb_irrefl float_ltb_trans float_ltb_split reverse p l Hp Hnn)
      as H.
    unfold with_key in H.
    rewrite (filter_ext_in _ (fun a => key_equal PrimFloat.ltb p (key a))).
    + rewrite H. apply filter_ext_in. intros a Ha.
      apply float_key_equal; [exact Hp|].
      now apply (proj1 (List.Forall_forall _ _) Hnn).
    + intros a Ha. symmetry. apply float_key_equal; [exact Hp|].
      now apply (proj1 (List.Forall_forall _ _) Hnn').
Qed.

Lemma sorted_float_reverse {A} (key : A -> float) (l : list A) :
  Forall (fun a => not_nan (key a)) l ->
  ForallOrdPairs (fun a b => (key a =? key b)%float = false) l ->
  sorted key PrimFloat.ltb true l = rev (sorted key PrimFloat.ltb false l).
Proof.
  intros Hnn Hd. apply sorted_reverse.
  - apply float_ltb_irrefl.
  - apply float_ltb_trans.
  - now apply float_distinct_keys.
Qed.

(** C5. For any key and any [<] that orders the keys present (irreflexive,
    transitive, every key splitting every strict pair), sorting descending
    is the exact reverse of sorting ascending when all keys are distinct,
    and in either direction the records sharing a key keep their original
    relative order. In particular for [sort_by_duration], whose keys are
    integers, and for [sort_by_price], whose keys are floats, as long as
    no price is NaN. Sorting leaves the manager as it is. *)
Theorem sort_ascending_descending :
  (forall (A K : Type) (key : A -> K) (lt : K -> K -> bool) (dom : K -> Prop),
     (forall a, lt a a = false) ->
     (forall a b c, lt a b = true -> lt b c = true -> lt a c = true) ->
     (forall a b c, dom c -> lt a b = true -> lt a c = true \/ lt c b = true) ->
     forall l, Forall (fun a => dom (key a)) l ->
       (distinct_keys key lt l ->
        sorted key lt true l = rev (sorted key lt false l))
       /\ (forall reverse k, dom k ->
             with_key key lt k (sorted key lt reverse l) = with_key key lt k l))
  /\
  (forall m : Movies.MovieManager,
     exists up down,
       Movies.sort_by_duration true m = (inr up, m, [])
       /\ Movies.sort_by_duration false m = (inr down, m, [])
       /\ (forall d, List.filter (fun x => Movies.duration x =? d) up
                     = List.filter (fun x => Movies.duration x =? d) (Movies.movies m))
       /\ (forall d, List.filter (fun x => Movies.duration x =? d) down
                     = List.filter (fun x => Movies.duration x =? d) (Movies.movies m))
       /\ (List.NoDup (map Movies.duration (Movies.movies m)) -> down = rev up))
  /\
  (forall m : Computers.ComputerManager,
     Forall (fun c => not_nan (Computers.price c)) (Computers.computers m) ->
     exists up down,
       Computers.sort_by_price true m = (inr up, m, [])
       /\ Computers.sort_by_price false m = (inr down, m, [])
       /\ (forall p, List.filter (fun c => (Computers.price c =? p)%float) up
                     = List.filter (fun c => (Computers.price c =? p)%float)
                         (Computers.computers m))
       /\ (forall p, List.filter (fun c => (Computers.price c =? p)%float) down
                     = List.filter (fun c => (Computers.price c =? p)%float)
                         (Computers.computers m))
       /\ (ForallOrdPairs
             (fun a b => (Computers.price a =? Computers.price b)%float = false)
             (Computers.computers m) ->
           down = rev up)).
Proof.
  refine (conj _ (conj _ _)).
  - intros A K key lt dom Hirr Htr Hsp l Hdom. split.
    + intros Hd. now apply sorted_reverse.
    + intros reverse k Hk. now apply (sorted_stable key lt dom).
  - intros m.
    exists (sorted Movies.duration Z.ltb false (Movies.movies m)),
           (sorted Movies.duration Z.ltb true (Movies.movies m)).
    split; [reflexivity|]. split; [reflexivity|].
    split; [intros d; apply sorted_Z_stable|].
    split; [intros d; apply sorted_Z_stable|].
    apply sorted_Z_reverse.
  - intros m Hnn.
    exists (sorted Computers.price PrimFloat.ltb false (Computers.computers m)),
           (sorted Computers.price PrimFloat.ltb true (Computers.computers m)).
    split; [reflexivity|]. split; [reflexivity|].
    split; [intros p; now apply sorted_float_stable|].
    split; [intros p; now apply sorted_float_stable|].
    now apply sorted_float_reverse.
Qed.

Lemma sort_ascending_descending_witness :
  exists up down,
    Computers.sort_by_price true
      (shop [pc 1 16 300 false; pc 2 8 100 false; pc 3 4 200 false])
    = (inr up, shop [pc 1 16 300 false; pc 2 8 100 false; pc 3 4 200 false], [])
    /\ Computers.sort_by_price false
         (shop [pc 1 16 300 false; pc 2 8 100 false; pc 3 4 200 false])
       = (inr down, shop [pc 1 16 300 false; pc 2 8 100 false; pc 3 4 200 false], [])
    /\ down = rev up.
Proof.
  destruct sort_ascending_descending as (_ & _ & H).
  destruct (H (shop [pc 1 16 300 false; pc 2 8 100 false; pc 3 4 200 false]))
    as (up & down & Hup & Hdown & _ & _ & Hrev).
  - repeat constructor.
  - exists up, down. split; [exact Hup|]. split; [exact Hdown|].
    apply Hrev. repeat constructor.
Defined.

Example sort_by_price_ties :
  result_of (Computers.sort_by_price false
               (shop [pc 1 16 200 false; pc 2 8 100 false; pc 3 4 200 false]))
  = inr [pc 1 16 200 false; pc 3 4 200 false; pc 2 8 100 false].
Proof. reflexivity. Qed.

(** A price that satisfies the data model's "non-negative" is not NaN. *)
Lemma nonnegative_not_nan (p : float) : (0 <=? p)%float = true -> not_nan p.
Proof.
  rewrite not_nan_spec, FloatAxioms.leb_spec. intros H Hnan.
  rewrite Hnan in H. revert H. unfold SFleb, SFcompare.
  now destruct (Prim2SF 0).
Qed.

(** ** Construction of a manager, on examples *)

Example init_absent_seeds :
  Computers.init Absent
  = (inr tt,
     {| Computers.computers := Computers.sample_computers;
        Computers.file := Doc (map Computers.to_dict Computers.sample_computers) |},
     [Written (map Computers.to_dict Computers.sample_computers);
      Printed Computers.SampleCreated]).
Proof. reflexivity. Qed.

Example init_malformed_computers :
  Computers.init Malformed
  = (inr tt, {| Computers.computers := []; Computers.file := Malformed |},
     [Printed Computers.LoadError]).
Proof. reflexivity. Qed.

Example init_malformed_movies :
  Movies.movies (state_of (Movies.init Malformed)) = Movies.sample_movies
  /\ writes (trace_of (Movies.init Malformed)) = 1%nat.
Proof. split; reflexivity. Qed.

Example init_missing_key :
  Computers.computers (state_of (Computers.init (Doc [delete "price" bare_computer]))) = []
  /\ Inventory.items (state_of (Inventory.init (Doc [delete "condition" odd_gear])))
     = Inventory.sample_items.
Proof. split; reflexivity. Qed.

Example str_in_examples :
  str_in "rtx" "nvidia rtx 4090" = true
  /\ str_in "gtx" "nvidia rtx 4090" = false
  /\ str_in "" "anything" = true.
Proof. repeat split. Qed.

Example write_off_scenario :
  Inventory.write_off 1 10 (store [gear 1 5 Inventory.GOOD])
  = (inr false, store [gear 1 5 Inventory.GOOD], [Printed (Inventory.NotEnough 5)]).
Proof. reflexivity. Qed.

(** * Further properties of the managers *)

(** ** Lists, continued *)

Lemma filter_sublist {A} (p : A -> bool) (l : list A) : sublist (List.filter p l) l.
Proof.
  induction l as [|a l IH]; simpl; [constructor|].
  destruct (p a); now constructor.
Qed.

Lemma NoDup_map_sublist {A B} (f : A -> B) (l1 l2 : list A) :
  sublist l1 l2 -> List.NoDup (map f l2) -> List.NoDup (map f l1).
Proof.
  induction 1 as [|x l1 l2 Hs IH|x l1 l2 Hs IH]; simpl; intros Hnd.
  - constructor.
  - apply NoDup_cons_iff in Hnd as [Hnotin Hnd]. constructor; [|now apply IH].
    intros Hin. apply Hnotin. apply in_map_iff in Hin as (y & Hy & Hin).
    apply in_map_iff. exists y. split; [assumption|].
    apply list_elem_of_In. eapply elem_of_sublist; [|exact Hs].
    now apply list_elem_of_In.
  - apply NoDup_cons_iff in Hnd as [_ Hnd]. now apply IH.
Qed.

Lemma filter_idem {A} (p : A -> bool) (l : list A) :
  List.filter p (List.filter p l) = List.filter p l.
Proof.
  apply filter_keeps_all. intros x Hx. now apply filter_In in Hx.
Qed.

Lemma update_first_map {A B} (p : A -> bool) (f : A -> A) (g : A -> B) (l : list A) :
  (forall x, g (f x) = g x) -> map g (update_first p f l) = map g l.
Proof.
  intros H. induction l as [|a l IH]; simpl; [reflexivity|].
  destruct (p a); simpl; [now rewrite H|now rewrite IH].
Qed.

Lemma update_first_none {A} (p : A -> bool) (f : A -> A) (l : list A) :
  next_match p l = None -> update_first p f l = l.
Proof.
  induction l as [|a l IH]; simpl; [reflexivity|].
  destruct (p a); [discriminate|]. intros H. now rewrite IH.
Qed.

Lemma next_match_none_iff {A} (p : A -> bool) (l : list A) :
  next_match p l = None <-> (forall x, In x l -> p x = false).
Proof.
  split; [|apply next_match_none].
  induction l as [|a l IH]; simpl; [intros _ x []|].
  destruct (p a) eqn:Hpa; [discriminate|].
  intros H x [<-|Hx]; [assumption|now apply IH].
Qed.

(** ** [ComputerManager]: removing by position *)

(** X1. [delete_by_index] with an index inside [0, len) removes exactly
    the record at that position, saves, and names the removed model; with
    any other index, negative ones included, it changes nothing, writes
    nothing and reports the admissible range. *)
Theorem delete_by_index_bounds (m : Computers.ComputerManager) (index : Z) :
  let cs := Computers.computers m in
  (0 <= index < Z.of_nat (length cs) ->
   exists removed,
     cs !! Z.to_nat index = Some removed
     /\ Computers.delete_by_index index m
        = (inr tt,
           {| Computers.computers := delete (Z.to_nat index) cs;
              Computers.file :=
                Doc (map Computers.to_dict (delete (Z.to_nat index) cs)) |},
           [Written (map Computers.to_dict (delete (Z.to_nat index) cs));
            Printed (Computers.Removed (Computers.model removed))])
     /\ S (length (delete (Z.to_nat index) cs)) = length cs)
  /\
  (~ (0 <= index < Z.of_nat (length cs)) ->
   Computers.delete_by_index index m
   = (inr tt, m, [Printed (Computers.BadIndex (Z.of_nat (length cs) - 1))])).
Proof.
  intros cs. split; intros H.
  - assert (Hlt : (Z.to_nat index < length cs)%nat) by lia.
    destruct (lookup_lt_is_Some_2 cs _ Hlt) as [removed Hrem].
    exists removed. split; [exact Hrem|]. split.
    + unfold Computers.delete_by_index. run_method. fold cs.
      rewrite (proj2 (Z.leb_le 0 index)) by lia.
      rewrite (proj2 (Z.ltb_lt index _)) by lia.
      cbn [andb]. rewrite Hrem. unfold Computers.pop.
      now rewrite <- delete_take_drop.
    + rewrite length_delete by eauto. lia.
  - unfold Computers.delete_by_index. run_method. fold cs.
    destruct (Z.leb_spec 0 index), (Z.ltb_spec index (Z.of_nat (length cs)));
      cbn [andb]; try reflexivity.
    lia.
Qed.

Lemma delete_by_index_bounds_witness :
  Computers.computers
    (state_of (Computers.delete_by_index 1
                 (shop [pc 1 16 100 false; pc 2 8 500 false; pc 3 4 50 false])))
  = [pc 1 16 100 false; pc 3 4 50 false]
  /\ Computers.delete_by_index (-1) (shop [pc 1 16 100 false])
     = (inr tt, shop [pc 1 16 100 false], [Printed (Computers.BadIndex 0)]).
Proof.
  split.
  - destruct (proj1 (delete_by_index_bounds
                       (shop [pc 1 16 100 false; pc 2 8 500 false; pc 3 4 50 false]) 1))
      as (removed & _ & Hrun & _).
    + cbn. lia.
    + rewrite Hrun. reflexivity.
  - apply (proj2 (delete_by_index_bounds (shop [pc 1 16 100 false]) (-1))).
    cbn. lia.
Defined.

(** ** [ComputerManager]: field updates *)

(** X2. [upgrade_ram] touches at most the first record carrying the id:
    when no record has the id it reports "not found" and neither changes
    nor writes anything; otherwise every record keeps its place and all of
    its fields except [ram], and the collection is written exactly once. *)
Theorem upgrade_ram_first_match (m : Computers.ComputerManager) (x delta : Z) :
  let r := Computers.upgrade_ram x delta m in
  ((forall c, In c (Computers.computers m) -> Computers.id c <> x) ->
   r = (inr tt, m, [Printed (Computers.NotFound x)]))
  /\
  ((exists c, In c (Computers.computers m) /\ Computers.id c = x) ->
   writes (trace_of r) = 1%nat
   /\ exists pre c post,
        Computers.computers m = pre ++ c :: post
        /\ Computers.computers (state_of r)
           = pre ++ Computers.add_ram delta c :: post
        /\ Computers.id c = x
        /\ Forall (fun y => Computers.id y <> x) pre).
Proof.
  intros r. split.
  - intros Habs. unfold r, Computers.upgrade_ram. run_method.
    rewrite next_match_none; [reflexivity|].
    intros c Hc. apply Z.eqb_neq. now apply Habs.
  - intros (c0 & Hin & Hid).
    destruct (next_match (fun c => Computers.id c =? x) (Computers.computers m))
      as [c|] eqn:Hfind.
    + destruct (next_match_some _ _ _ Hfind) as (pre & post & Hm & Hpre & Hc).
      assert (Hpre' : forall y, In y pre -> Computers.id y <> x).
      { intros y Hy. apply Z.eqb_neq. now apply Hpre. }
      apply Z.eqb_eq in Hc.
      pose proof (upgrade_ram_run m pre post c x delta Hm Hpre' Hc) as Hrun.
      cbv zeta in Hrun. unfold r. rewrite Hrun. split; [reflexivity|].
      exists pre, c, post. repeat split; try assumption.
      now apply List.Forall_forall.
    + exfalso. rewrite next_match_none_iff in Hfind.
      specialize (Hfind c0 Hin). apply Z.eqb_neq in Hfind. contradiction.
Qed.

Lemma upgrade_ram_first_match_witness :
  Computers.upgrade_ram 9 4 (shop [pc 1 16 100 false])
  = (inr tt, shop [pc 1 16 100 false], [Printed (Computers.NotFound 9)])
  /\ writes (trace_of (Computers.upgrade_ram 1 4 (shop [pc 1 16 100 false]))) = 1%nat.
Proof.
  split.
  - apply (proj1 (upgrade_ram_first_match (shop [pc 1 16 100 false]) 9 4)).
    intros c [<-|[]]. discriminate.
  - apply (proj2 (upgrade_ram_first_match (shop [pc 1 16 100 false]) 1 4)).
    exists (pc 1 16 100 false). split; [now left|reflexivity].
Defined.

(** X3. [mark_as_sale] is guarded by the flag for every manager and id:
    whatever the first call did, a second call with the same id leaves
    the manager as the first call left it and writes nothing, so the 10%
    reduction is never applied twice. The first call writes at most
    once. *)
Theorem mark_as_sale_twice (m : Computers.ComputerManager) (x : Z) :
  let m1 := state_of (Computers.mark_as_sale x m) in
  state_of (Computers.mark_as_sale x m1) = m1
  /\ writes (trace_of (Computers.mark_as_sale x m1)) = 0%nat
  /\ (writes (trace_of (Computers.mark_as_sale x m)) <= 1)%nat.
Proof.
  intros m1. subst m1. unfold Computers.mark_as_sale. run_method.
  destruct (next_match (fun c => Computers.id c =? x) (Computers.computers m))
    as [c|] eqn:Hfind.
  - destruct (next_match_some _ _ _ Hfind) as (pre & post & Hm & Hpre & Hc).
    destruct (Computers.is_on_sale c) eqn:Hsale; cbn [negb].
    + cbn [state_of trace_of fst snd]. rewrite Hfind, Hsale. cbn. repeat split; lia.
    + cbn [state_of trace_of fst snd Computers.computers]. rewrite Hm.
      rewrite (update_first_app _ _ pre post c Hpre Hc).
      rewrite (next_match_app _ pre post (Computers.put_on_sale c) Hpre Hc).
      cbn. repeat split; lia.
  - cbn [state_of trace_of fst snd]. rewrite Hfind. cbn. repeat split; lia.
Qed.

(** ** [ComputerManager]: what its mutators keep *)

Lemma filter_same_length {A} (p : A -> bool) (l : list A) :
  ~ (length (List.filter p l) < length l)%nat -> List.filter p l = l.
Proof.
  induction l as [|a l IH]; simpl; [reflexivity|].
  destruct (p a); simpl; intros H.
  - f_equal. apply IH. lia.
  - pose proof (filter_length_le p l). lia.
Qed.

Lemma add_computer_state (m : Computers.ComputerManager) (c : Computers.GamingComputer) :
  state_of (Computers.add_computer c m)
  = if existsb (fun x => Computers.id x =? Computers.id c) (Computers.computers m)
    then m else shop (Computers.computers m ++ [c]).
Proof.
  unfold Computers.add_computer. run_method. now destruct (existsb _ _).
Qed.

Lemma delete_by_id_state (m : Computers.ComputerManager) (x : Z) :
  let kept := List.filter (fun c => negb (Computers.id c =? x)) (Computers.computers m) in
  state_of (Computers.delete_by_id x m)
  = if (length kept <? length (Computers.computers m))%nat then shop kept else m.
Proof.
  intros kept. rewrite delete_by_id_run. fold kept.
  destruct (Nat.ltb_spec (length kept) (length (Computers.computers m))) as [Hlt|Hge];
    [reflexivity|].
  cbn. unfold kept. rewrite filter_same_length by (fold kept; lia). now destruct m.
Qed.

Lemma delete_by_index_state (m : Computers.ComputerManager) (index : Z) :
  state_of (Computers.delete_by_index index m)
  = if (0 <=? index) && (index <? Z.of_nat (length (Computers.computers m)))
    then shop (delete (Z.to_nat index) (Computers.computers m)) else m.
Proof.
  unfold Computers.delete_by_index. run_method.
  destruct (Z.leb_spec 0 index), (Z.ltb_spec index (Z.of_nat (length (Computers.computers m))));
    cbn [andb]; try reflexivity.
  assert (Hlt : (Z.to_nat index < length (Computers.computers m))%nat) by lia.
  destruct (lookup_lt_is_Some_2 _ _ Hlt) as [removed Hrem].
  rewrite Hrem. unfold Computers.pop. now rewrite <- delete_take_drop.
Qed.

Lemma upgrade_ram_state (m : Computers.ComputerManager) (x delta : Z) :
  state_of (Computers.upgrade_ram x delta m)
  = match next_match (fun c => Computers.id c =? x) (Computers.computers m) with
    | Some _ => shop (update_first (fun c => Computers.id c =? x)
                        (Computers.add_ram delta) (Computers.computers m))
    | None => m
    end.
Proof.
  unfold Computers.upgrade_ram. run_method. now destruct (next_match _ _).
Qed.

Lemma mark_as_sale_state (m : Computers.ComputerManager) (x : Z) :
  state_of (Computers.mark_as_sale x m)
  = match next_match (fun c => Computers.id c =? x) (Computers.computers m) with
    | Some c =>
        if Computers.is_on_sale c then m
        else shop (update_first (fun c => Computers.id c =? x)
                     Computers.put_on_sale (Computers.computers m))
    | None => m
    end.
Proof.
  unfold Computers.mark_as_sale. run_method.
  destruct (next_match _ _) as [c|]; [|reflexivity].
  now destruct (Computers.is_on_sale c).
Qed.

(** X4. Pairwise distinct ids are an invariant of the manager: when the
    ids of the collection are distinct, they still are after
    [add_computer], [delete_by_id], [delete_by_index], [upgrade_ram] and
    [mark_as_sale], whatever their arguments and whether they succeed. *)
Theorem computer_ids_stay_unique (m : Computers.ComputerManager) :
  unique_ids m ->
  (forall c, unique_ids (state_of (Computers.add_computer c m)))
  /\ (forall x, unique_ids (state_of (Computers.delete_by_id x m)))
  /\ (forall i, unique_ids (state_of (Computers.delete_by_index i m)))
  /\ (forall x delta, unique_ids (state_of (Computers.upgrade_ram x delta m)))
  /\ (forall x, unique_ids (state_of (Computers.mark_as_sale x m))).
Proof.
  unfold unique_ids. intros Hm.
  refine (conj _ (conj _ (conj _ (conj _ _)))).
  - intros c. rewrite add_computer_state.
    destruct (existsb _ _) eqn:Hex; [exact Hm|]. cbn.
    rewrite map_app. cbn.
    eapply Permutation_NoDup; [apply Permutation_cons_append|].
    constructor; [|exact Hm].
    intros Hin. apply in_map_iff in Hin as (y & Hy & Hin).
    assert (Htrue : existsb (fun x => Computers.id x =? Computers.id c)
                      (Computers.computers m) = true).
    { apply existsb_exists. exists y. split; [assumption|]. now apply Z.eqb_eq. }
    congruence.
  - intros x. rewrite delete_by_id_state. cbv zeta.
    destruct (_ <? _)%nat; [|exact Hm]. cbn.
    eapply NoDup_map_sublist; [apply filter_sublist|exact Hm].
  - intros i. rewrite delete_by_index_state.
    destruct (_ && _); [|exact Hm]. cbn.
    eapply NoDup_map_sublist; [apply sublist_delete|exact Hm].
  - intros x delta. rewrite upgrade_ram_state.
    destruct (next_match _ _); [|exact Hm]. cbn.
    now rewrite update_first_map.
  - intros x. rewrite mark_as_sale_state.
    destruct (next_match _ _) as [c|]; [|exact Hm].
    destruct (Computers.is_on_sale c); [exact Hm|]. cbn.
    now rewrite update_first_map.
Qed.

Lemma computer_ids_stay_unique_witness :
  unique_ids (state_of (Computers.add_computer (pc 1 8 500 false)
                          (shop [pc 1 16 100 false; pc 2 8 500 false])))
  /\ unique_ids (state_of (Computers.upgrade_ram 2 8
                             (shop [pc 1 16 100 false; pc 2 8 500 false]))).
Proof.
  assert (H : unique_ids (shop [pc 1 16 100 false; pc 2 8 500 false])).
  { unfold unique_ids. cbn. repeat constructor; cbn; intuition discriminate. }
  destruct (computer_ids_stay_unique _ H) as (Hadd & _ & _ & Hup & _).
  split; [apply Hadd|apply Hup].
Defined.

(** X5. Memory and file stay synchronized: when the file holds the
    serialization of the collection, it still does after [add_computer],
    [delete_by_id], [delete_by_index], [upgrade_ram] and [mark_as_sale],
    on their failing paths too; and a manager constructed without a file
    starts out synchronized. *)
Theorem computers_stay_synced (m : Computers.ComputerManager) :
  synced m ->
  (forall c, synced (state_of (Computers.add_computer c m)))
  /\ (forall x, synced (state_of (Computers.delete_by_id x m)))
  /\ (forall i, synced (state_of (Computers.delete_by_index i m)))
  /\ (forall x delta, synced (state_of (Computers.upgrade_ram x delta m)))
  /\ (forall x, synced (state_of (Computers.mark_as_sale x m)))
  /\ synced (state_of (Computers.init Absent)).
Proof.
  unfold synced. intros Hm.
  refine (conj _ (conj _ (conj _ (conj _ (conj _ _))))).
  - intros c. rewrite add_computer_state. now destruct (existsb _ _).
  - intros x. rewrite delete_by_id_state. cbv zeta. now destruct (_ <? _)%nat.
  - intros i. rewrite delete_by_index_state. now destruct (_ && _).
  - intros x delta. rewrite upgrade_ram_state. now destruct (next_match _ _).
  - intros x. rewrite mark_as_sale_state.
    destruct (next_match _ _) as [c|]; [|exact Hm].
    now destruct (Computers.is_on_sale c).
  - reflexivity.
Qed.

Lemma computers_stay_synced_witness :
  synced (state_of (Computers.delete_by_id 1
                      (shop [pc 1 16 100 false; pc 2 8 500 false])))
  /\ synced (state_of (Computers.mark_as_sale 2
                         (shop [pc 1 16 100 false; pc 2 8 500 false]))).
Proof.
  destruct (computers_stay_synced (shop [pc 1 16 100 false; pc 2 8 500 false]) eq_refl)
    as (_ & Hdel & _ & _ & Hsale & _).
  split; [apply Hdel|apply Hsale].
Defined.

(** ** Construction *)




(** ** [GamingComputer.from_dict]: keys *)

Section Getters.
Context {Msg : Type}.

Lemma typed_get_spec {T} (as_t : value -> exn Msg + T) (data : dict) (k : string) :
  (forall v, as_t v = inl TypeError \/ exists t, as_t v = inr t) ->
  (forall t, bindE (getitem data k) as_t = inr t -> is_Some (data !! k))
  /\ (forall k', bindE (getitem data k) as_t = inl (KeyError k') ->
                 k' = k /\ data !! k = None).
Proof.
  intros Has. unfold bindE, getitem. destruct (data !! k) as [v|].
  - split; [eauto|]. intros k' H. destruct (Has v) as [Hv|[t Hv]]; congruence.
  - split; [discriminate|]. now intros k' [= <-].
Qed.

Lemma as_int_cases (v : value) :
  as_int (Msg := Msg) v = inl TypeError \/ exists t, as_int (Msg := Msg) v = inr t.
Proof. destruct v; cbn; eauto. Qed.

Lemma as_str_cases (v : value) :
  as_str (Msg := Msg) v = inl TypeError \/ exists t, as_str (Msg := Msg) v = inr t.
Proof. destruct v; cbn; eauto. Qed.

Lemma as_float_cases (v : value) :
  as_float (Msg := Msg) v = inl TypeError \/ exists t, as_float (Msg := Msg) v = inr t.
Proof. destruct v; cbn; eauto. Qed.

Lemma get_bool_default_no_KeyError (data : dict) (k k' : string) (d : bool) :
  get_bool_default (Msg := Msg) data k d <> inl (KeyError k').
Proof.
  unfold get_bool_default. destruct (data !! k) as [[]|]; cbn; discriminate.
Qed.

Lemma get_int_spec (data : dict) (k : string) :
  (forall t, get_int (Msg := Msg) data k = inr t -> is_Some (data !! k))
  /\ (forall k', get_int (Msg := Msg) data k = inl (KeyError k') ->
                 k' = k /\ data !! k = None).
Proof. apply typed_get_spec, as_int_cases. Qed.

Lemma get_str_spec (data : dict) (k : string) :
  (forall t, get_str (Msg := Msg) data k = inr t -> is_Some (data !! k))
  /\ (forall k', get_str (Msg := Msg) data k = inl (KeyError k') ->
                 k' = k /\ data !! k = None).
Proof. apply typed_get_spec, as_str_cases. Qed.

Lemma get_float_spec (data : dict) (k : string) :
  (forall t, get_float (Msg := Msg) data k = inr t -> is_Some (data !! k))
  /\ (forall k', get_float (Msg := Msg) data k = inl (KeyError k') ->
                 k' = k /\ data !! k = None).
Proof. apply typed_get_spec, as_float_cases. Qed.
End Getters.

Lemma computers_from_dict_ok (data : dict) (c : Computers.GamingComputer) :
  Computers.from_dict data = inr c ->
  Forall (fun k => is_Some (data !! k)) required_keys.
Proof.
  intros H. unfold Computers.from_dict, mbind, exn_bind in H.
  destruct (get_int data "id") as [|i] eqn:E1; [discriminate|].
  destruct (get_str data "model") as [|mo] eqn:E2; [discriminate|].
  destruct (get_str data "processor") as [|pr] eqn:E3; [discriminate|].
  destruct (get_int data "ram") as [|ra] eqn:E4; [discriminate|].
  destruct (get_int data "ssd") as [|ss] eqn:E5; [discriminate|].
  destruct (get_str data "graphics_card") as [|gc] eqn:E6; [discriminate|].
  destruct (get_float data "price") as [|pc] eqn:E7; [discriminate|].
  unfold required_keys. repeat constructor.
  - exact (proj1 (get_int_spec data "id") _ E1).
  - exact (proj1 (get_str_spec data "model") _ E2).
  - exact (proj1 (get_str_spec data "processor") _ E3).
  - exact (proj1 (get_int_spec data "ram") _ E4).
  - exact (proj1 (get_int_spec data "ssd") _ E5).
  - exact (proj1 (get_str_spec data "graphics_card") _ E6).
  - exact (proj1 (get_float_spec data "price") _ E7).
Qed.

Lemma computers_from_dict_KeyError (data : dict) (k : string) :
  Computers.from_dict data = inl (KeyError k) ->
  In k required_keys /\ data !! k = None.
Proof.
  intros H. unfold Computers.from_dict, mbind, exn_bind in H.
  destruct (get_int data "id") as [e|i] eqn:E1.
  { injection H as ->. destruct (proj2 (get_int_spec data "id") _ E1) as [-> Hn].
    split; [cbn; tauto|exact Hn]. }
  destruct (get_str data "model") as [e|mo] eqn:E2.
  { injection H as ->. destruct (proj2 (get_str_spec data "model") _ E2) as [-> Hn].
    split; [cbn; tauto|exact Hn]. }
  destruct (get_str data "processor") as [e|pr] eqn:E3.
  { injection H as ->. destruct (proj2 (get_str_spec data "processor") _ E3) as [-> Hn].
    split; [cbn; tauto|exact Hn]. }
  destruct (get_int data "ram") as [e|ra] eqn:E4.
  { injection H as ->. destruct (proj2 (get_int_spec data "ram") _ E4) as [-> Hn].
    split; [cbn; tauto|exact Hn]. }
  destruct (get_int data "ssd") as [e|ss] eqn:E5.
  { injection H as ->. destruct (proj2 (get_int_spec data "ssd") _ E5) as [-> Hn].
    split; [cbn; tauto|exact Hn]. }
  destruct (get_str data "graphics_card") as [e|gc] eqn:E6.
  { injection H as ->.
    destruct (proj2 (get_str_spec data "graphics_card") _ E6) as [-> Hn].
    split; [cbn; tauto|exact Hn]. }
  destruct (get_float data "price") as [e|pc] eqn:E7.
  { injection H as ->. destruct (proj2 (get_float_spec data "price") _ E7) as [-> Hn].
    split; [cbn; tauto|exact Hn]. }
  cbn [bindE] in H.
  destruct (get_bool_default data "is_on_sale" false) as [e|b] eqn:E8.
  - injection H as ->. now apply get_bool_default_no_KeyError in E8.
  - discriminate H.
Qed.

(** X8. [from_dict] reads seven keys with [data[...]]: when it returns a
    record all seven are present; a [KeyError] it raises names one of the
    seven, and that key is missing; a missing one of the seven always
    makes it fail; and a key other than the seven and ["is_on_sale"] is
    ignored, whatever its value. *)
Theorem computers_from_dict_keys (data : dict) :
  (forall c, Computers.from_dict data = inr c ->
             Forall (fun k => is_Some (data !! k)) required_keys)
  /\ (forall k, Computers.from_dict data = inl (KeyError k) ->
                In k required_keys /\ data !! k = None)
  /\ (forall k, In k required_keys -> data !! k = None ->
                exists e, Computers.from_dict data = inl e)
  /\ (forall k v, ~ In k ("is_on_sale" :: required_keys) ->
                  Computers.from_dict (<[k := v]> data) = Computers.from_dict data).
Proof.
  refine (conj _ (conj _ (conj _ _))).
  - apply computers_from_dict_ok.
  - apply computers_from_dict_KeyError.
  - intros k Hk Hnone.
    destruct (Computers.from_dict data) as [e|c] eqn:Hfd; [eauto|].
    pose proof (computers_from_dict_ok data c Hfd) as Hall.
    pose proof (proj1 (List.Forall_forall _ _) Hall k Hk) as [v Hv]. congruence.
  - intros k v Hk.
    assert (Hne : forall k0, In k0 ("is_on_sale" :: required_keys) ->
                             <[k := v]> data !! k0 = data !! k0).
    { intros k0 Hk0. apply lookup_insert_ne. intros ->. contradiction. }
    unfold Computers.from_dict, get_int, get_str, get_float, get_bool_default, getitem.
    rewrite !Hne by (cbn; tauto). reflexivity.
Qed.

Lemma computers_from_dict_keys_witness :
  (exists e, Computers.from_dict (delete "ram" bare_computer) = inl e)
  /\ Computers.from_dict (<["color" := VStr "red"]> bare_computer)
     = Computers.from_dict bare_computer.
Proof.
  split.
  - apply (proj1 (proj2 (proj2 (computers_from_dict_keys (delete "ram" bare_computer))))
             "ram").
    + cbn. tauto.
    + reflexivity.
  - apply (proj2 (proj2 (proj2 (computers_from_dict_keys bare_computer)))).
    cbn. intros H. repeat (destruct H as [H|H]; [discriminate H|]). exact H.
Defined.

(** ** [filter_by_graphics] *)

(** X9. [filter_by_graphics] is a query: it returns a subsequence of the
    collection and leaves the manager alone; for a non-empty text it
    returns what [search_by_criteria] returns when only the graphics
    criterion is given. *)
Theorem filter_by_graphics_is_search (lower : string -> string)
    (m : Computers.ComputerManager) (g : string) :
  (exists l, Computers.filter_by_graphics lower g m = (inr l, m, [])
             /\ sublist l (Computers.computers m))
  /\ (str_truthy g = true ->
      Computers.filter_by_graphics lower g m
      = Computers.search_by_criteria lower None None None (Some g) m).
Proof.
  split.
  - eexists. split; [reflexivity|apply filter_sublist].
  - intros Hg. unfold Computers.filter_by_graphics, Computers.search_by_criteria.
    run_method. now rewrite Hg.
Qed.

Lemma filter_by_graphics_is_search_witness :
  Computers.filter_by_graphics (fun s => s) "GPU" (shop [pc 1 16 100 false])
  = Computers.search_by_criteria (fun s => s) None None None (Some "GPU")
      (shop [pc 1 16 100 false]).
Proof.
  apply (proj2 (filter_by_graphics_is_search (fun s => s) (shop [pc 1 16 100 false]) "GPU")).
  reflexivity.
Defined.

(** ** Extremes *)

Section ExtremeFacts.
Context {A K : Type} (key : A -> K) (better : K -> K -> bool).
Hypothesis better_irrefl : forall a, better a a = false.
Hypothesis better_trans :
  forall a b c, better a b = true -> better b c = true -> better a c = true.

Lemma keep_best_spec (best : A) (l : list A) :
  let r := keep_best key better best l in
  (r = best \/ better (key r) (key best) = true)
  /\ In r (best :: l)
  /\ (forall x, In x (best :: l) -> better (key x) (key r) = false).
Proof.
  revert best. induction l as [|x l IH]; intros best; cbn [keep_best].
  - cbv zeta. split; [now left|]. split; [now left|].
    intros x [<-|[]]. apply better_irrefl.
  - destruct (IH (if better (key x) (key best) then x else best)) as (Hrel & Hin & Hmax).
    set (r := keep_best key better _ l) in *.
    assert (Hasym : forall a b, better a b = true -> better b a = false).
    { intros a b Hab. destruct (better b a) eqn:Hba; [|reflexivity].
      rewrite <- (better_irrefl a). symmetry. now apply better_trans with b. }
    destruct (better (key x) (key best)) eqn:Hx.
    + assert (Hrb : better (key r) (key best) = true).
      { destruct Hrel as [->|Hrx]; [assumption|]. now apply better_trans with (key x). }
      split; [now right|]. split.
      * destruct Hin as [<-|Hin]; [right; now left|right; now right].
      * intros y [<-|[<-|Hy]].
        -- now apply Hasym.
        -- apply Hmax. now left.
        -- apply Hmax. now right.
    + split; [exact Hrel|]. split.
      * destruct Hin as [<-|Hin]; [now left|right; now right].
      * intros y [<-|[<-|Hy]].
        -- apply Hmax. now left.
        -- destruct Hrel as [->|Hrb]; [assumption|].
           destruct (better (key x) (key r)) eqn:Hxr; [|reflexivity].
           rewrite <- Hx. symmetry. now apply better_trans with (key r).
        -- apply Hmax. now right.
Qed.
End ExtremeFacts.

Lemma py_max_spec {A K} (key : A -> K) (lt : K -> K -> bool) (l : list A) :
  (forall a, lt a a = false) ->
  (forall a b c, lt a b = true -> lt b c = true -> lt a c = true) ->
  l <> [] ->
  exists r, py_max key lt l = Some r /\ In r l
            /\ forall x, In x l -> lt (key r) (key x) = false.
Proof.
  intros Hirr Htr Hne. destruct l as [|a l]; [congruence|].
  pose proof (keep_best_spec key (fun a b => lt b a) Hirr
                (fun a b c Hab Hbc => Htr c b a Hbc Hab) a l) as (_ & Hin & Hmax).
  eexists. split; [reflexivity|]. split; [exact Hin|exact Hmax].
Qed.

Lemma py_min_spec {A K} (key : A -> K) (lt : K -> K -> bool) (l : list A) :
  (forall a, lt a a = false) ->
  (forall a b c, lt a b = true -> lt b c = true -> lt a c = true) ->
  l <> [] ->
  exists r, py_min key lt l = Some r /\ In r l
            /\ forall x, In x l -> lt (key x) (key r) = false.
Proof.
  intros Hirr Htr Hne. destruct l as [|a l]; [congruence|].
  pose proof (keep_best_spec key lt Hirr Htr a l) as (_ & Hin & Hmin).
  eexists. split; [reflexivity|]. split; [exact Hin|exact Hmin].
Qed.

(** X10. [get_price_extremes] returns the pair of [None] on an empty
    collection. Otherwise it returns two records of the collection, the
    first with no record priced above it and the second with no record
    priced below it; the manager is left alone. *)
Theorem get_price_extremes_spec (m : Computers.ComputerManager) :
  (Computers.computers m = [] ->
   Computers.get_price_extremes m = (inr (None, None), m, []))
  /\
  (Computers.computers m <> [] ->
   exists most_expensive cheapest,
     Computers.get_price_extremes m = (inr (Some most_expensive, Some cheapest), m, [])
     /\ In most_expensive (Computers.computers m)
     /\ In cheapest (Computers.computers m)
     /\ forall c, In c (Computers.computers m) ->
          (Computers.price most_expensive <? Computers.price c)%float = false
          /\ (Computers.price c <? Computers.price cheapest)%float = false).
Proof.
  unfold Computers.get_price_extremes. run_method. split.
  - intros ->. reflexivity.
  - intros Hne.
    destruct (py_max_spec Computers.price PrimFloat.ltb (Computers.computers m)
                float_ltb_irrefl float_ltb_trans Hne) as (hi & Hhi & Hin_hi & Hmax).
    destruct (py_min_spec Computers.price PrimFloat.ltb (Computers.computers m)
                float_ltb_irrefl float_ltb_trans Hne) as (lo & Hlo & Hin_lo & Hmin).
    exists hi, lo. rewrite Hhi, Hlo.
    destruct (Computers.computers m); [congruence|].
    repeat split; auto.
Qed.

Lemma get_price_extremes_spec_witness :
  Computers.get_price_extremes (shop [])
  = (inr (None, None), shop [], [])
  /\ exists most_expensive cheapest,
       result_of (Computers.get_price_extremes
                    (shop [pc 1 16 100 false; pc 2 8 500 false; pc 3 4 50 false]))
       = inr (Some most_expensive, Some cheapest).
Proof.
  split.
  - apply (proj1 (get_price_extremes_spec (shop []))). reflexivity.
  - destruct (proj2 (get_price_extremes_spec
                       (shop [pc 1 16 100 false; pc 2 8 500 false; pc 3 4 50 false])))
      as (hi & lo & Hrun & _); [discriminate|].
    exists hi, lo. now rewrite Hrun.
Defined.

(** X11. The other extreme queries behave alike: [get_heaviest_item],
    [game_with_max_score] and [course_with_min_rating] return [None] on
    an empty list, and otherwise a record of the list that no record
    exceeds in weight or score, respectively undercuts in rating. *)
Theorem extreme_queries_spec :
  (forall m : Inventory.InventoryManager,
     (Inventory.items m = [] ->
      Inventory.get_heaviest_item m = (inr None, m, []))
     /\ (Inventory.items m <> [] ->
         exists h, Inventory.get_heaviest_item m = (inr (Some h), m, [])
                   /\ In h (Inventory.items m)
                   /\ forall e, In e (Inventory.items m) ->
                        (Inventory.weight h <? Inventory.weight e)%float = false))
  /\
  (forall m : Games.GameManager,
     (Games.games m = [] -> Games.game_with_max_score m = None)
     /\ (Games.games m <> [] ->
         exists g, Games.game_with_max_score m = Some g
                   /\ In g (Games.games m)
                   /\ forall x, In x (Games.games m) ->
                        (Games.player_score g <? Games.player_score x)%float = false))
  /\
  (forall m : Courses.CourseManager,
     (Courses.courses m = [] -> Courses.course_with_min_rating m = None)
     /\ (Courses.courses m <> [] ->
         exists c, Courses.course_with_min_rating m = Some c
                   /\ In c (Courses.courses m)
                   /\ forall x, In x (Courses.courses m) ->
                        (Courses.rating x <? Courses.rating c)%float = false)).
Proof.
  refine (conj _ (conj _ _)); intros m; split.
  - unfold Inventory.get_heaviest_item. run_method. now intros ->.
  - intros Hne.
    destruct (py_max_spec Inventory.weight PrimFloat.ltb (Inventory.items m)
                float_ltb_irrefl float_ltb_trans Hne) as (h & Hh & Hin & Hmax).
    exists h. unfold Inventory.get_heaviest_item. run_method. rewrite Hh.
    destruct (Inventory.items m); [congruence|]. auto.
  - unfold Games.game_with_max_score. now intros ->.
  - intros Hne.
    destruct (py_max_spec Games.player_score PrimFloat.ltb (Games.games m)
                float_ltb_irrefl float_ltb_trans Hne) as (g & Hg & Hin & Hmax).
    exists g. unfold Games.game_with_max_score. rewrite Hg.
    destruct (Games.games m); [congruence|]. auto.
  - unfold Courses.course_with_min_rating. now intros ->.
  - intros Hne.
    destruct (py_min_spec Courses.rating PrimFloat.ltb (Courses.courses m)
                float_ltb_irrefl float_ltb_trans Hne) as (c & Hc & Hin & Hmin).
    exists c. unfold Courses.course_with_min_rating. rewrite Hc.
    destruct (Courses.courses m); [congruence|]. auto.
Qed.

Lemma extreme_queries_spec_witness :
  exists h, Inventory.get_heaviest_item (store [gear 1 5 Inventory.NEW])
            = (inr (Some h), store [gear 1 5 Inventory.NEW], []).
Proof.
  destruct extreme_queries_spec as (Hinv & _ & _).
  destruct (proj2 (Hinv (store [gear 1 5 Inventory.NEW]))) as (h & Hrun & _);
    [discriminate|].
  exists h. exact Hrun.
Defined.

(** ** Sorting: order and content *)

Lemma StronglySorted_rev {A} (R : A -> A -> Prop) (l : list A) :
  StronglySorted R l -> StronglySorted (fun a b => R b a) (rev l).
Proof.
  induction 1 as [|a l Hl IH Ha]; simpl; [constructor|].
  apply StronglySorted_app. split; [|split; [exact IH|repeat constructor]].
  intros x1 x2 Hx1 Hx2. apply list_elem_of_In in Hx1, Hx2.
  destruct Hx2 as [<-|[]]. apply in_rev in Hx1.
  now apply (proj1 (List.Forall_forall _ _) Ha).
Qed.

Lemma StronglySorted_impl_in {A} (R R' : A -> A -> Prop) (l : list A) :
  (forall a b, In a l -> In b l -> R a b -> R' a b) ->
  StronglySorted R l -> StronglySorted R' l.
Proof.
  intros H Hs. induction Hs as [|a l Hl IH Ha]; [constructor|].
  constructor.
  - apply IH. intros x y Hx Hy. apply H; now right.
  - apply List.Forall_forall. intros b Hb. apply H; [now left|now right|].
    now apply (proj1 (List.Forall_forall _ _) Ha).
Qed.

Lemma sorted_Z_ordered {A} (key : A -> Z) (reverse : bool) (l : list A) :
  StronglySorted (fun a b => if reverse then key b <= key a else key a <= key b)
    (sorted key Z.ltb reverse l).
Proof.
  assert (Hup : forall l', StronglySorted (fun a b => key a <= key b)
                             (list_sort key Z.ltb l')).
  { intros l'. eapply StronglySorted_impl_in;
      [|apply (list_sort_ordered key Z.ltb Z.ltb_irrefl Z_ltb_trans)].
    intros a b _ _ Hab. unfold not_after in Hab. apply Z.ltb_ge in Hab. exact Hab. }
  destruct reverse; simpl.
  - apply (StronglySorted_rev _ _ (Hup (rev l))).
  - apply Hup.
Qed.

Lemma SFleb_of_not_ltb x y :
  x <> S754_nan -> y <> S754_nan -> SFltb y x = false -> SFleb x y = true.
Proof. unfold SFleb. revert x y. float_cases. Qed.

Lemma float_leb_of_not_ltb (a b : float) :
  not_nan a -> not_nan b -> (b <? a)%float = false -> (a <=? b)%float = true.
Proof.
  rewrite !not_nan_spec, FloatAxioms.ltb_spec, FloatAxioms.leb_spec.
  apply SFleb_of_not_ltb.
Qed.

Lemma sorted_float_ordered {A} (key : A -> float) (reverse : bool) (l : list A) :
  Forall (fun a => not_nan (key a)) l ->
  StronglySorted
    (fun a b => if reverse then (key b <=? key a)%float = true
                else (key a <=? key b)%float = true)
    (sorted key PrimFloat.ltb reverse l).
Proof.
  intros Hnn.
  assert (Hup : forall l', Forall (fun a => not_nan (key a)) l' ->
                           StronglySorted (fun a b => (key a <=? key b)%float = true)
                             (list_sort key PrimFloat.ltb l')).
  { intros l' Hl'.
    eapply StronglySorted_impl_in;
      [|apply (list_sort_ordered key PrimFloat.ltb float_ltb_irrefl float_ltb_trans)].
    intros a b Ha Hb Hab. unfold not_after in Hab.
    assert (Hl'' : Forall (fun a => not_nan (key a)) (list_sort key PrimFloat.ltb l')).
    { eapply Permutation_Forall; [symmetry; apply list_sort_perm|exact Hl']. }
    apply float_leb_of_not_ltb; [| |exact Hab];
      now apply (proj1 (List.Forall_forall _ _) Hl''). }
  destruct reverse; simpl.
  - apply (StronglySorted_rev _ _ (Hup (rev l) (List.Forall_rev Hnn))).
  - now apply Hup.
Qed.

(** X12. The sorts on an integer key return a rearrangement of the whole
    collection in which the keys never decrease (ascending) or never
    increase (descending), and leave the manager alone:
    [sort_by_ram_ssd_sum], [sort_by_duration], [sort_by_quantity_desc]
    and [sort_courses] by duration or by students. *)
Theorem integer_sorts_ordered :
  (forall m ascending,
     exists l, Computers.sort_by_ram_ssd_sum ascending m = (inr l, m, [])
       /\ Permutation l (Computers.computers m)
       /\ StronglySorted
            (fun a b =>
               if ascending
               then Computers.ram a + Computers.ssd a <= Computers.ram b + Computers.ssd b
               else Computers.ram b + Computers.ssd b <= Computers.ram a + Computers.ssd a)
            l)
  /\ (forall m ascending,
        exists l, Movies.sort_by_duration ascending m = (inr l, m, [])
          /\ Permutation l (Movies.movies m)
          /\ StronglySorted
               (fun a b => if ascending then Movies.duration a <= Movies.duration b
                           else Movies.duration b <= Movies.duration a) l)
  /\ (forall m,
        exists l, Inventory.sort_by_quantity_desc m = (inr l, m, [])
          /\ Permutation l (Inventory.items m)
          /\ StronglySorted
               (fun a b => Inventory.quantity b <= Inventory.quantity a) l)
  /\ (forall m ascending,
        Permutation (Courses.sort_courses "duration" ascending m) (Courses.courses m)
        /\ StronglySorted
             (fun a b => if ascending
                         then Courses.duration_hours a <= Courses.duration_hours b
                         else Courses.duration_hours b <= Courses.duration_hours a)
             (Courses.sort_courses "duration" ascending m))
  /\ (forall m ascending,
        Permutation (Courses.sort_courses "students" ascending m) (Courses.courses m)
        /\ StronglySorted
             (fun a b => if ascending
                         then Courses.students_enrolled a <= Courses.students_enrolled b
                         else Courses.students_enrolled b <= Courses.students_enrolled a)
             (Courses.sort_courses "students" ascending m)).
Proof.
  refine (conj _ (conj _ (conj _ (conj _ _)))).
  - intros m asc. eexists. split; [reflexivity|]. split; [apply sorted_perm|].
    pose proof (sorted_Z_ordered (fun x => Computers.ram x + Computers.ssd x)
                  (negb asc) (Computers.computers m)) as H.
    now destruct asc.
  - intros m asc. eexists. split; [reflexivity|]. split; [apply sorted_perm|].
    pose proof (sorted_Z_ordered Movies.duration (negb asc) (Movies.movies m)) as H.
    now destruct asc.
  - intros m. eexists. split; [reflexivity|]. split; [apply sorted_perm|].
    apply (sorted_Z_ordered Inventory.quantity true).
  - intros m asc. unfold Courses.sort_courses. cbn [String.eqb Ascii.eqb Bool.eqb].
    split; [apply sorted_perm|].
    pose proof (sorted_Z_ordered Courses.duration_hours (negb asc) (Courses.courses m)) as H.
    now destruct asc.
  - intros m asc. unfold Courses.sort_courses.
    change (String.eqb "students" "duration") with false.
    change (String.eqb "students" "students") with true. cbv iota.
    split; [apply sorted_perm|].
    pose proof (sorted_Z_ordered Courses.students_enrolled (negb asc) (Courses.courses m))
      as H.
    now destruct asc.
Qed.



(** ** [MovieManager] *)

(** X14. [get_top_3_by_rating] returns the first three movies of
    [sort_by_rating_desc], or all of them when there are fewer: the top
    and the rest together are a rearrangement of the collection, and when
    no rating is NaN every movie left out is rated no higher than each
    movie of the top. *)
Theorem get_top_3_by_rating_spec (m : Movies.MovieManager) :
  exists top rest,
    Movies.get_top_3_by_rating m = (inr top, m, [])
    /\ Movies.sort_by_rating_desc m = (inr (top ++ rest), m, [])
    /\ length top = Nat.min 3 (length (Movies.movies m))
    /\ Permutation (top ++ rest) (Movies.movies m)
    /\ (Forall (fun x => not_nan (Movies.rating x)) (Movies.movies m) ->
        forall a b, In a top -> In b rest ->
                    (Movies.rating b <=? Movies.rating a)%float = true).
Proof.
  set (s := sorted Movies.rating PrimFloat.ltb true (Movies.movies m)).
  exists (take 3 s), (drop 3 s).
  assert (Hperm : Permutation s (Movies.movies m)) by apply sorted_perm.
  split; [reflexivity|]. rewrite take_drop.
  split; [reflexivity|].
  split; [rewrite length_take, (Permutation_length Hperm); reflexivity|].
  split; [exact Hperm|].
  intros Hnn a b Ha Hb.
  pose proof (sorted_float_ordered Movies.rating true _ Hnn) as Hs.
  fold s in Hs. rewrite <- (take_drop 3 s) in Hs.
  apply StronglySorted_app in Hs as (Hcross & _ & _).
  apply (Hcross a b); now apply list_elem_of_In.
Qed.

Lemma get_top_3_by_rating_spec_witness :
  exists top rest,
    Movies.get_top_3_by_rating
      {| Movies.movies := Movies.sample_movies; Movies.file := Absent |}
    = (inr top, {| Movies.movies := Movies.sample_movies; Movies.file := Absent |}, [])
    /\ length top = 3%nat
    /\ forall a b, In a top -> In b rest ->
                   (Movies.rating b <=? Movies.rating a)%float = true.
Proof.
  destruct (get_top_3_by_rating_spec
              {| Movies.movies := Movies.sample_movies; Movies.file := Absent |})
    as (top & rest & Hrun & _ & Hlen & _ & Hord).
  exists top, rest. split; [exact Hrun|]. split; [exact Hlen|].
  apply Hord. repeat constructor.
Defined.

Lemma print_then {Msg St B} (x : Msg) (k : M Msg St B) (s : St) :
  (print x;; k) s = (result_of (k s), state_of (k s), Printed x :: trace_of (k s)).
Proof. run_method. now destruct (k s) as [[res st] tr]. Qed.

Lemma print_loop {Msg St A} (msg : A -> Msg) (l : list A) (s : St) :
  foldr (fun x k => print (msg x);; k) (ret tt) l s
  = (inr tt, s, map (fun x => Printed (msg x)) l).
Proof.
  induction l as [|a l IH]; [reflexivity|].
  cbn [foldr map]. now rewrite print_then, IH.
Qed.

Lemma writes_prints {Msg A} (msg : A -> Msg) (l : list A) :
  writes (map (fun x => Printed (msg x)) l) = 0%nat.
Proof. unfold writes. induction l; simpl; auto. Qed.

Ltac run_print_loop msg :=
  match goal with
  | |- context [foldr ?f ?z ?l ?k] =>
      let H := fresh in
      assert (H : foldr f z l k = (inr tt, k, map (fun x => Printed (msg x)) l))
        by exact (print_loop msg l k);
      rewrite H; clear H
  end.

Lemma flag_map_fixed {A} (hit : A -> bool) (f : A -> A) (l : list A) :
  (forall a, hit (f a) = false) ->
  let l' := map (fun a => if hit a then f a else a) l in
  List.filter hit l' = [] /\ map (fun a => if hit a then f a else a) l' = l'.
Proof.
  intros Hf l'. subst l'. induction l as [|a l [IH1 IH2]]; [now split|].
  cbn [map List.filter]. destruct (hit a) eqn:Ha.
  - rewrite Hf. split; [exact IH1|now rewrite IH2].
  - rewrite Ha. split; [exact IH1|now rewrite IH2].
Qed.

Lemma Forall2_map_self {A} (R : A -> A -> Prop) (f : A -> A) (l : list A) :
  (forall a, R a (f a)) -> Forall2 R l (map f l).
Proof. intros H. induction l; simpl; constructor; auto. Qed.

Lemma mark_epic_movies_run (m : Movies.MovieManager) (t : Z) :
  let after := map (fun x => if newly_epic t x then Movies.set_epic x else x)
                 (Movies.movies m) in
  let marked := map Movies.set_epic (List.filter (newly_epic t) (Movies.movies m)) in
  Movies.mark_epic_movies t m
  = if existsb (newly_epic t) (Movies.movies m)
    then (inr marked,
          {| Movies.movies := after; Movies.file := Doc (map Movies.to_dict after) |},
          Written (map Movies.to_dict after)
          :: Printed (Movies.MarkedEpic (length marked))
          :: map (fun x => Printed (Movies.EpicLine (Movies.title x) (Movies.duration x)))
               marked)
    else (inr [],
          {| Movies.movies := after; Movies.file := Movies.file m |},
          [Printed Movies.NoNewEpic]).
Proof.
  intros after marked.
  assert (Hex : existsb (newly_epic t) (Movies.movies m)
                = match marked with [] => false | _ :: _ => true end).
  { unfold marked. induction (Movies.movies m) as [|a l IH]; [reflexivity|].
    cbn [existsb List.filter]. now destruct (newly_epic t a). }
  rewrite Hex.
  unfold Movies.mark_epic_movies. run_method.
  change (fun m0 : Movies.Movie =>
            (t <? Movies.duration m0) && negb (Movies.is_epic m0))
    with (newly_epic t).
  change (map (fun m0 : Movies.Movie =>
                 if (t <? Movies.duration m0) && negb (Movies.is_epic m0)
                 then Movies.set_epic m0 else m0) (Movies.movies m))
    with after.
  fold marked. destruct marked as [|a l] eqn:Hmarked; [reflexivity|].
  run_method.
  run_print_loop (fun x => Movies.EpicLine (Movies.title x) (Movies.duration x)).
  cbn [app map Movies.movies Movies.file]. now rewrite ?app_nil_r.
Qed.

(** X15. After [mark_epic_movies t] every movie longer than [t] carries
    the flag; each movie is either untouched or differs only in the flag,
    which is never cleared; the returned movies are the newly flagged
    ones; the collection is written once if there are any and not at all
    otherwise; and calling it again at once flags nothing and writes
    nothing. *)
Theorem mark_epic_movies_effect (m : Movies.MovieManager) (t : Z) :
  let r := Movies.mark_epic_movies t m in
  let newly := fun x => (t <? Movies.duration x) && negb (Movies.is_epic x) in
  result_of r = inr (map Movies.set_epic (List.filter newly (Movies.movies m)))
  /\ Forall (fun x => t < Movies.duration x -> Movies.is_epic x = true)
       (Movies.movies (state_of r))
  /\ Forall2 (fun a b => b = a \/ (newly a = true /\ b = Movies.set_epic a))
       (Movies.movies m) (Movies.movies (state_of r))
  /\ writes (trace_of r)
     = (if existsb newly (Movies.movies m) then 1 else 0)%nat
  /\ Movies.mark_epic_movies t (state_of r)
     = (inr [], state_of r, [Printed Movies.NoNewEpic]).
Proof.
  intros r newly.
  change newly with (newly_epic t) in *. clear newly.
  set (after := map (fun x => if newly_epic t x then Movies.set_epic x else x)
                  (Movies.movies m)).
  assert (Hst : Movies.movies (state_of r) = after).
  { unfold r. rewrite mark_epic_movies_run. now destruct (existsb _ _). }
  assert (Hfix : forall a, newly_epic t (Movies.set_epic a) = false).
  { intros a. unfold newly_epic. cbn. apply andb_false_r. }
  destruct (flag_map_fixed (newly_epic t) Movies.set_epic (Movies.movies m) Hfix)
    as [Hnone Hsame].
  fold after in Hnone, Hsame.
  refine (conj _ (conj _ (conj _ (conj _ _)))).
  - unfold r. rewrite mark_epic_movies_run. cbv zeta.
    destruct (existsb _ _) eqn:Hex; [reflexivity|].
    cbn. rewrite filter_none; [reflexivity|].
    intros x Hx. destruct (newly_epic t x) eqn:Hn; [|reflexivity].
    rewrite <- Hex. symmetry. apply existsb_exists. eauto.
  - rewrite Hst. unfold after. apply List.Forall_forall. intros x Hx.
    apply in_map_iff in Hx as (a & <- & _). intros Hlong.
    destruct (newly_epic t a) eqn:Ha; [reflexivity|].
    unfold newly_epic in Ha.
    rewrite (proj2 (Z.ltb_lt _ _) Hlong) in Ha. cbn in Ha.
    now apply negb_false_iff in Ha.
  - rewrite Hst. unfold after. apply Forall2_map_self. intros a.
    destruct (newly_epic t a); [right; now split|now left].
  - unfold r. rewrite mark_epic_movies_run. cbv zeta.
    destruct (existsb _ _); [|reflexivity].
    unfold writes. cbn. f_equal.
    induction (map Movies.set_epic _) as [|a l IH]; [reflexivity|exact IH].
  - rewrite mark_epic_movies_run. cbv zeta. rewrite Hst, Hsame.
    assert (Hno : existsb (newly_epic t) after = false).
    { destruct (existsb (newly_epic t) after) eqn:Hex; [|reflexivity].
      apply existsb_exists in Hex as (x & Hx & Hn).
      assert (Hin : In x (List.filter (newly_epic t) after)) by now apply filter_In.
      rewrite Hnone in Hin. destruct Hin. }
    rewrite Hno. destruct (state_of r) as [ms f] eqn:Hr. cbn in Hst. now subst ms.
Qed.

Lemma increase_price_for_old_movies_run
    (m : Movies.MovieManager) (year_threshold : Z) (increase_percent : float) :
  let old := List.filter (is_old year_threshold) (Movies.movies m) in
  let after := map (fun x => if is_old year_threshold x
                             then with_raised_price increase_percent x else x)
                 (Movies.movies m) in
  Movies.increase_price_for_old_movies year_threshold increase_percent m
  = if existsb (is_old year_threshold) (Movies.movies m)
    then (inr (map (with_raised_price increase_percent) old),
          {| Movies.movies := after; Movies.file := Doc (map Movies.to_dict after) |},
          Written (map Movies.to_dict after)
          :: Printed (Movies.PriceIncreased (length old) year_threshold)
          :: map (fun x => Printed
                             (Movies.PriceLine (Movies.title x) (Movies.year x)
                                (Movies.price x)
                                (Movies.raised increase_percent (Movies.price x))
                                increase_percent)) old)
    else (inr [],
          {| Movies.movies := after; Movies.file := Movies.file m |},
          [Printed (Movies.NoOldMovies year_threshold)]).
Proof.
  intros old after.
  assert (Hex : existsb (is_old year_threshold) (Movies.movies m)
                = match old with [] => false | _ :: _ => true end).
  { unfold old. induction (Movies.movies m) as [|a l IH]; [reflexivity|].
    cbn [existsb List.filter]. now destruct (is_old year_threshold a). }
  rewrite Hex.
  unfold Movies.increase_price_for_old_movies. run_method.
  change (fun m0 : Movies.Movie => Movies.year m0 <? year_threshold)
    with (is_old year_threshold).
  change (map (fun m0 : Movies.Movie =>
                 if Movies.year m0 <? year_threshold
                 then Movies.set_price
                        (Movies.raised increase_percent (Movies.price m0)) m0
                 else m0) (Movies.movies m))
    with after.
  fold old. destruct old as [|a l] eqn:Hold; [reflexivity|].
  run_method.
  run_print_loop (fun x => Movies.PriceLine (Movies.title x) (Movies.year x)
                             (Movies.price x)
                             (Movies.raised increase_percent (Movies.price x))
                             increase_percent).
  cbn [app map Movies.movies Movies.file]. now rewrite ?app_nil_r.
Qed.

(** X16. [increase_price_for_old_movies] leaves every movie released in
    or after the threshold year exactly as it was and changes only the
    price of the others; it returns the changed movies; it writes once
    when some movie is older than the threshold, and when none is it
    leaves the manager as it was and writes nothing. *)
Theorem increase_price_for_old_movies_effect
    (m : Movies.MovieManager) (year_threshold : Z) (increase_percent : float) :
  let r := Movies.increase_price_for_old_movies year_threshold increase_percent m in
  let old := fun x => Movies.year x <? year_threshold in
  let lift := fun x => Movies.set_price
                         (Movies.raised increase_percent (Movies.price x)) x in
  result_of r = inr (map lift (List.filter old (Movies.movies m)))
  /\ Forall2 (fun a b => if old a then b = lift a else b = a)
       (Movies.movies m) (Movies.movies (state_of r))
  /\ writes (trace_of r) = (if existsb old (Movies.movies m) then 1 else 0)%nat
  /\ ((forall x, In x (Movies.movies m) -> year_threshold <= Movies.year x) ->
      r = (inr [], m, [Printed (Movies.NoOldMovies year_threshold)])).
Proof.
  intros r old lift.
  change old with (is_old year_threshold) in *. clear old.
  change lift with (with_raised_price increase_percent) in *. clear lift.
  pose proof (increase_price_for_old_movies_run m year_threshold increase_percent)
    as Hrun. cbv zeta in Hrun. fold r in Hrun.
  refine (conj _ (conj _ (conj _ _))).
  - rewrite Hrun. destruct (existsb _ _) eqn:Hex; [reflexivity|].
    cbn. rewrite filter_none; [reflexivity|].
    intros x Hx. destruct (is_old year_threshold x) eqn:Hn; [|reflexivity].
    rewrite <- Hex. symmetry. apply existsb_exists. eauto.
  - assert (Hst : Movies.movies (state_of r)
                  = map (fun x => if is_old year_threshold x
                                  then with_raised_price increase_percent x else x)
                      (Movies.movies m)).
    { rewrite Hrun. now destruct (existsb _ _). }
    rewrite Hst. apply Forall2_map_self. intros a.
    now destruct (is_old year_threshold a).
  - rewrite Hrun. destruct (existsb _ _); [|reflexivity].
    unfold writes. cbn. f_equal.
    exact (writes_prints
             (fun x => Movies.PriceLine (Movies.title x) (Movies.year x)
                         (Movies.price x)
                         (Movies.raised increase_percent (Movies.price x))
                         increase_percent) _).
  - intros Hall.
    assert (Hnone : forall x, In x (Movies.movies m) -> is_old year_threshold x = false).
    { intros x Hx. apply Z.ltb_ge. now apply Hall. }
    assert (Hno : existsb (is_old year_threshold) (Movies.movies m) = false).
    { destruct (existsb _ _) eqn:Hex; [|reflexivity].
      apply existsb_exists in Hex as (x & Hx & Hn). rewrite (Hnone x Hx) in Hn.
      discriminate. }
    rewrite Hrun, Hno.
    assert (Hid : map (fun x => if is_old year_threshold x
                                then with_raised_price increase_percent x else x)
                    (Movies.movies m) = Movies.movies m).
    { rewrite <- (map_id (Movies.movies m)) at 2. apply map_ext_in.
      intros x Hx. now rewrite (Hnone x Hx). }
    rewrite Hid. now destruct m.
Qed.

Lemma increase_price_for_old_movies_effect_witness :
  Movies.increase_price_for_old_movies 1900 20
    {| Movies.movies := Movies.sample_movies; Movies.file := Absent |}
  = (inr [], {| Movies.movies := Movies.sample_movies; Movies.file := Absent |},
     [Printed (Movies.NoOldMovies 1900)]).
Proof.
  apply (proj2 (proj2 (proj2 (increase_price_for_old_movies_effect
           {| Movies.movies := Movies.sample_movies; Movies.file := Absent |} 1900 20)))).
  intros x Hx. cbn in Hx.
  repeat (destruct Hx as [<-|Hx]; [cbn; lia|]). destruct Hx.
Defined.

(** ** [InventoryManager] *)

Lemma write_off_run (m : Inventory.InventoryManager) (x q : Z) :
  Inventory.write_off x q m
  = match next_match (fun i => Inventory.id i =? x) (Inventory.items m) with
    | None => (inr false, m, [Printed (Inventory.NotFound x)])
    | Some item =>
        if q <=? 0 then (inr false, m, [Printed Inventory.MustBePositive])
        else if Inventory.quantity item <? q
        then (inr false, m, [Printed (Inventory.NotEnough (Inventory.quantity item))])
        else
          let l := update_first (fun i => Inventory.id i =? x) (Inventory.take_out q)
                     (Inventory.items m) in
          (inr true, store l,
           Written (map Inventory.to_dict l)
           :: Printed (Inventory.WrittenOff q (Inventory.name item)
                         (Inventory.quantity item - q))
           :: (if Inventory.quantity item - q =? 0
               then [Printed (Inventory.ZeroLeft (Inventory.name item))] else []))
    end.
Proof.
  unfold Inventory.write_off. run_method.
  destruct (next_match _ _) as [item|]; [|reflexivity].
  destruct (q <=? 0); [reflexivity|].
  destruct (Inventory.quantity item <? q); [reflexivity|].
  now destruct (Inventory.quantity item - q =? 0).
Qed.

(** X17. [write_off] succeeds exactly when the first item with the id
    exists and the amount is positive and within its stock. When it
    fails, nothing changes and nothing is written; when it succeeds, the
    collection is written once. It never raises, and it keeps every
    stock non-negative if every stock was. *)
Theorem write_off_outcome (m : Inventory.InventoryManager) (x q : Z) :
  let r := Inventory.write_off x q m in
  (exists ok, result_of r = inr ok)
  /\ (result_of r = inr true <->
      exists item,
        next_match (fun i => Inventory.id i =? x) (Inventory.items m) = Some item
        /\ 0 < q <= Inventory.quantity item)
  /\ (result_of r = inr false -> state_of r = m /\ writes (trace_of r) = 0%nat)
  /\ (result_of r = inr true -> writes (trace_of r) = 1%nat)
  /\ (stock_nonnegative m -> stock_nonnegative (state_of r)).
Proof.
  intros r. unfold r. rewrite write_off_run.
  destruct (next_match (fun i => Inventory.id i =? x) (Inventory.items m))
    as [item|] eqn:Hfind.
  - destruct (Z.leb_spec q 0) as [Hq|Hq].
    { refine (conj _ (conj _ (conj _ (conj _ _)))); cbn; eauto.
      - split; [discriminate|]. intros (i & [= <-] & Hi). lia.
      - discriminate. }
    destruct (Z.ltb_spec (Inventory.quantity item) q) as [Hlt|Hge].
    { refine (conj _ (conj _ (conj _ (conj _ _)))); cbn; eauto.
      - split; [discriminate|]. intros (i & [= <-] & Hi). lia.
      - discriminate. }
    cbv zeta. refine (conj _ (conj _ (conj _ (conj _ _)))).
    + eexists. reflexivity.
    + split; [|reflexivity]. intros _. exists item. split; [reflexivity|lia].
    + discriminate.
    + intros _. now destruct (Inventory.quantity item - q =? 0).
    + intros Hnn. unfold stock_nonnegative in *. cbn.
      destruct (next_match_some _ _ _ Hfind) as (pre & post & Hm & Hpre & Hc).
      rewrite Hm. rewrite (update_first_app _ _ pre post item Hpre Hc).
      rewrite Hm in Hnn. apply List.Forall_app in Hnn as [Hpre_nn Hrest].
      apply List.Forall_cons_iff in Hrest as [_ Hpost_nn].
      apply List.Forall_app. split; [exact Hpre_nn|].
      constructor; [cbn; lia|exact Hpost_nn].
  - refine (conj _ (conj _ (conj _ (conj _ _)))); cbn; eauto.
    + split; [discriminate|]. intros (i & [=] & _).
    + discriminate.
Qed.

Lemma write_off_outcome_witness :
  writes (trace_of (Inventory.write_off 1 5 (store [gear 1 5 Inventory.GOOD]))) = 1%nat
  /\ stock_nonnegative
       (state_of (Inventory.write_off 1 5 (store [gear 1 5 Inventory.GOOD]))).
Proof.
  destruct (write_off_outcome (store [gear 1 5 Inventory.GOOD]) 1 5)
    as (_ & _ & _ & Hw & Hnn).
  split.
  - apply Hw. reflexivity.
  - apply Hnn. repeat constructor. cbn. lia.
Defined.

(** X18. [delete_zero_quantity] keeps, in order, exactly the items whose
    stock is positive, so items with a negative stock go as well; it
    returns how many it dropped, writes once when that number is not zero
    and not at all otherwise, and a second call right after drops
    nothing and writes nothing. *)
Theorem delete_zero_quantity_effect (m : Inventory.InventoryManager) :
  let r := Inventory.delete_zero_quantity m in
  let gone := length (List.filter (fun e => Inventory.quantity e <=? 0)
                        (Inventory.items m)) in
  result_of r = inr gone
  /\ Inventory.items (state_of r)
     = List.filter (fun e => 0 <? Inventory.quantity e) (Inventory.items m)
  /\ Forall (fun e => 0 < Inventory.quantity e) (Inventory.items (state_of r))
  /\ writes (trace_of r) = (if (0 <? gone)%nat then 1 else 0)%nat
  /\ Inventory.delete_zero_quantity (state_of r)
     = (inr 0%nat, state_of r, [Printed Inventory.NoZero]).
Proof.
  intros r gone.
  set (kept := List.filter (fun e => 0 <? Inventory.quantity e) (Inventory.items m)).
  assert (Hcount : (length (Inventory.items m) - length kept)%nat = gone).
  { unfold gone, kept.
    pose proof (filter_length (fun e => 0 <? Inventory.quantity e) (Inventory.items m))
      as Hlen.
    rewrite (filter_ext (fun e => Inventory.quantity e <=? 0)
               (fun e => negb (0 <? Inventory.quantity e))).
    - lia.
    - intros e. destruct (Z.ltb_spec 0 (Inventory.quantity e)),
        (Z.leb_spec (Inventory.quantity e) 0); cbn; try reflexivity; lia. }
  assert (Hrun : r = if (0 <? gone)%nat
                     then (inr gone, store kept,
                           [Written (map Inventory.to_dict kept);
                            Printed (Inventory.ZeroDeleted gone)])
                     else (inr gone,
                           {| Inventory.items := kept;
                              Inventory.file := Inventory.file m |},
                           [Printed Inventory.NoZero])).
  { unfold r, Inventory.delete_zero_quantity. run_method.
    cbn [Inventory.items Inventory.file]. fold kept.
    rewrite Hcount. now destruct (0 <? gone)%nat. }
  assert (Hst : Inventory.items (state_of r) = kept).
  { rewrite Hrun. now destruct (0 <? gone)%nat. }
  refine (conj _ (conj _ (conj _ (conj _ _)))).
  - rewrite Hrun. now destruct (0 <? gone)%nat.
  - exact Hst.
  - rewrite Hst. apply List.Forall_forall. intros e He.
    apply filter_In in He as [_ He]. now apply Z.ltb_lt.
  - rewrite Hrun. now destruct (0 <? gone)%nat.
  - unfold Inventory.delete_zero_quantity. run_method.
    cbn [Inventory.items Inventory.file]. rewrite Hst.
    unfold kept. rewrite filter_idem. fold kept.
    rewrite Nat.sub_diag. cbn.
    destruct (state_of r) as [l f] eqn:Hr. cbn in Hst. now subst l.
Qed.

Lemma mark_for_repair_run (m : Inventory.InventoryManager) :
  let after := map (fun e => if Inventory.repairable e
                             then Inventory.set_condition Inventory.NEEDS_REPAIR e
                             else e) (Inventory.items m) in
  let marked := map (Inventory.set_condition Inventory.NEEDS_REPAIR)
                  (List.filter Inventory.repairable (Inventory.items m)) in
  Inventory.mark_for_repair m
  = if existsb Inventory.repairable (Inventory.items m)
    then (inr marked, store after,
          [Written (map Inventory.to_dict after);
           Printed (Inventory.MarkedForRepair (length marked))])
    else (inr [],
          {| Inventory.items := after; Inventory.file := Inventory.file m |},
          [Printed Inventory.NothingToMark]).
Proof.
  intros after marked.
  assert (Hex : existsb Inventory.repairable (Inventory.items m)
                = match marked with [] => false | _ :: _ => true end).
  { unfold marked. induction (Inventory.items m) as [|a l IH]; [reflexivity|].
    cbn [existsb List.filter]. now destruct (Inventory.repairable a). }
  rewrite Hex. unfold Inventory.mark_for_repair. run_method.
  fold after. fold marked. now destruct marked.
Qed.

Lemma new_items_kept (l : list Inventory.SportsEquipment) :
  List.filter (fun i => Inventory.Condition_eqb (Inventory.condition i) Inventory.NEW)
    (map (fun e => if Inventory.repairable e
                   then Inventory.set_condition Inventory.NEEDS_REPAIR e else e) l)
  = List.filter (fun i => Inventory.Condition_eqb (Inventory.condition i) Inventory.NEW) l.
Proof.
  induction l as [|a l IH]; [reflexivity|].
  cbn [map List.filter]. rewrite IH.
  destruct a as [? ? ? ? ? ? []]; reflexivity.
Qed.

(** X19. After [mark_for_repair] no item is left in condition "good" or
    "worn"; the items in condition "new" are the same as before; the
    collection is written once if some item changed and not at all
    otherwise; and a second call right after marks nothing and writes
    nothing. *)
Theorem mark_for_repair_effect (m : Inventory.InventoryManager) :
  let r := Inventory.mark_for_repair m in
  Forall (fun e => Inventory.condition e = Inventory.NEW
                   \/ Inventory.condition e = Inventory.NEEDS_REPAIR)
    (Inventory.items (state_of r))
  /\ result_of (Inventory.get_new_items (state_of r))
     = result_of (Inventory.get_new_items m)
  /\ writes (trace_of r)
     = (if existsb Inventory.repairable (Inventory.items m) then 1 else 0)%nat
  /\ Inventory.mark_for_repair (state_of r)
     = (inr [], state_of r, [Printed Inventory.NothingToMark]).
Proof.
  intros r.
  set (after := map (fun e => if Inventory.repairable e
                              then Inventory.set_condition Inventory.NEEDS_REPAIR e
                              else e) (Inventory.items m)).
  assert (Hst : Inventory.items (state_of r) = after).
  { unfold r. rewrite mark_for_repair_run. now destruct (existsb _ _). }
  assert (Hfix : forall a, Inventory.repairable
                             (Inventory.set_condition Inventory.NEEDS_REPAIR a) = false)
    by reflexivity.
  destruct (flag_map_fixed Inventory.repairable
              (Inventory.set_condition Inventory.NEEDS_REPAIR) (Inventory.items m) Hfix)
    as [Hnone Hsame].
  fold after in Hnone, Hsame.
  refine (conj _ (conj _ (conj _ _))).
  - rewrite Hst. unfold after. apply List.Forall_forall. intros e He.
    apply in_map_iff in He as (a & <- & _).
    destruct a as [? ? ? ? ? ? []]; cbn; auto.
  - unfold Inventory.get_new_items. run_method. cbn. f_equal.
    rewrite Hst. apply new_items_kept.
  - unfold r. rewrite mark_for_repair_run. now destruct (existsb _ _).
  - rewrite mark_for_repair_run. cbv zeta. rewrite Hst, Hsame.
    assert (Hno : existsb Inventory.repairable after = false).
    { destruct (existsb Inventory.repairable after) eqn:Hex; [|reflexivity].
      apply existsb_exists in Hex as (y & Hy & Hn).
      assert (Hin : In y (List.filter Inventory.repairable after))
        by now apply filter_In.
      rewrite Hnone in Hin. destruct Hin. }
    rewrite Hno. destruct (state_of r) as [l f] eqn:Hr. cbn in Hst. now subst l.
Qed.

Lemma search_by_sport_and_weight_run (lower : string -> string)
    (m : Inventory.InventoryManager) a b c :
  Inventory.search_by_sport_and_weight lower a b c m
  = (inr (List.filter (item_meets lower a b c) (Inventory.items m)), m, []).
Proof.
  unfold Inventory.search_by_sport_and_weight. run_method.
  rewrite (optional_text_filter lower Inventory.sport_type a).
  rewrite (optional_filter (fun v e => PrimFloat.leb v (Inventory.weight e)) b).
  rewrite (optional_filter (fun v e => PrimFloat.leb (Inventory.weight e) v) c).
  rewrite !filter_filter_and.
  do 3 f_equal. apply filter_ext. intros x. unfold item_meets.
  now rewrite !andb_assoc.
Qed.

(** X20. [search_by_sport_and_weight] leaves the manager alone; it
    returns, in collection order, the items that meet every given
    criterion, all items when none is given, and a subsequence of its
    former result when criteria are added. *)
Theorem inventory_search_narrows (lower : string -> string)
    (m : Inventory.InventoryManager) :
  Inventory.search_by_sport_and_weight lower None None None m
  = (inr (Inventory.items m), m, [])
  /\ (forall a b c,
        Inventory.search_by_sport_and_weight lower a b c m
        = (inr (List.filter (item_meets lower a b c) (Inventory.items m)), m, []))
  /\ (forall a b c a' b' c',
        adds a a' -> adds b b' -> adds c c' ->
        exists l l',
          Inventory.search_by_sport_and_weight lower a b c m = (inr l, m, [])
          /\ Inventory.search_by_sport_and_weight lower a' b' c' m = (inr l', m, [])
          /\ sublist l' l).
Proof.
  refine (conj _ (conj _ _)).
  - reflexivity.
  - intros. apply search_by_sport_and_weight_run.
  - intros a b c a' b' c' Ha Hb Hc.
    do 2 eexists. rewrite !search_by_sport_and_weight_run.
    split; [reflexivity|]. split; [reflexivity|].
    apply filter_sublist_impl. intros x. unfold item_meets, text_criterion.
    rewrite !andb_true_iff. intros [[H1 H2] H3].
    repeat split; eapply criterion_adds; eassumption.
Qed.

Lemma inventory_search_narrows_witness :
  exists l l',
    Inventory.search_by_sport_and_weight (fun s => s) None None None
      (store [gear 1 5 Inventory.NEW; gear 2 3 Inventory.WORN])
    = (inr l, store [gear 1 5 Inventory.NEW; gear 2 3 Inventory.WORN], [])
    /\ Inventory.search_by_sport_and_weight (fun s => s) (Some "foot") None None
         (store [gear 1 5 Inventory.NEW; gear 2 3 Inventory.WORN])
       = (inr l', store [gear 1 5 Inventory.NEW; gear 2 3 Inventory.WORN], [])
    /\ sublist l' l.
Proof.
  apply (proj2 (proj2 (inventory_search_narrows (fun s => s)
                         (store [gear 1 5 Inventory.NEW; gear 2 3 Inventory.WORN])))
           None None None (Some "foot") None None); now left.
Defined.

(** ** [GameManager] and [CourseManager] *)

(** X21. The hit flag follows the score: [mark_hits] makes every game's
    flag say whether its score reaches 8.5, whatever the flags were; a
    manager filled through [add_game] has that property from the start
    and keeps it through [add_game], [change_price_by_genre] and
    [remove_out_of_stock]; and on such a manager [mark_hits] changes
    nothing. *)
Theorem hit_flags_consistent :
  (forall m, Forall hit_consistent (Games.games (Games.mark_hits m)))
  /\ Forall hit_consistent (Games.games Games.init)
  /\ (forall m,
        Forall hit_consistent (Games.games m) ->
        (forall g, Forall hit_consistent (Games.games (Games.add_game g m)))
        /\ (forall lower genre percent,
              Forall hit_consistent
                (Games.games (Games.change_price_by_genre lower genre percent m)))
        /\ Forall hit_consistent (Games.games (Games.remove_out_of_stock m))
        /\ Games.mark_hits m = m).
Proof.
  refine (conj _ (conj _ _)).
  - intros m. cbn. apply List.Forall_forall. intros g Hg.
    apply in_map_iff in Hg as (a & <- & _). reflexivity.
  - constructor.
  - intros m Hm. refine (conj _ (conj _ (conj _ _))).
    + intros g. cbn. apply List.Forall_app. split; [exact Hm|].
      constructor; [reflexivity|constructor].
    + intros lower genre percent. cbn. apply List.Forall_forall. intros g Hg.
      apply in_map_iff in Hg as (a & <- & Ha).
      pose proof (proj1 (List.Forall_forall _ _) Hm a Ha) as Hc.
      now destruct (String.eqb _ _).
    + cbn. apply List.Forall_forall. intros g Hg.
      apply filter_In in Hg as [Hg _].
      now apply (proj1 (List.Forall_forall _ _) Hm).
    + destruct m as [l]. unfold Games.mark_hits. cbn in *. f_equal.
      rewrite <- (map_id l) at 2. apply map_ext_in. intros g Hg.
      pose proof (proj1 (List.Forall_forall _ _) Hm g Hg) as Hc.
      unfold hit_consistent in Hc. destruct g as [t0 g0 p0 a0 s0 pr0 c0 h0].
      unfold Games.update_hit_status.
      cbn [Games.title Games.genre Games.platform Games.age_rating
           Games.player_score Games.price Games.copies_sold Games.is_hit] in *.
      now rewrite <- Hc.
Qed.

Lemma hit_flags_consistent_witness :
  Forall hit_consistent
    (Games.games
       (Games.add_game (Games.new "Minecraft" "Sandbox" "Multiplatform" 7 9.0 26.95 300)
          (Games.add_game (Games.new "FIFA 23" "Sports" "PS5" 3 8.0 69.99 10)
             Games.init))).
Proof.
  destruct hit_flags_consistent as (_ & Hinit & Hkeep).
  apply Hkeep. apply Hkeep. exact Hinit.
Defined.

(** X22. The two clean-ups keep, in order, exactly the records that pass
    their test, and doing them twice is the same as doing them once:
    after [remove_out_of_stock] every game has sold at least one copy;
    after [remove_low_rating_courses t] every course is rated at least
    [t], a course whose rating is NaN being removed too. *)
Theorem cleanups_effect :
  (forall m,
     let m1 := Games.remove_out_of_stock m in
     Forall (fun g => 0 < Games.copies_sold g) (Games.games m1)
     /\ sublist (Games.games m1) (Games.games m)
     /\ (forall g, In g (Games.games m) -> 0 < Games.copies_sold g ->
                   In g (Games.games m1))
     /\ Games.remove_out_of_stock m1 = m1)
  /\
  (forall m threshold,
     let m1 := Courses.remove_low_rating_courses threshold m in
     Forall (fun c => (threshold <=? Courses.rating c)%float = true
                      /\ not_nan (Courses.rating c))
       (Courses.courses m1)
     /\ sublist (Courses.courses m1) (Courses.courses m)
     /\ (forall c, In c (Courses.courses m) ->
                   (threshold <=? Courses.rating c)%float = true ->
                   In c (Courses.courses m1))
     /\ Courses.remove_low_rating_courses threshold m1 = m1).
Proof.
  split.
  - intros m m1. refine (conj _ (conj _ (conj _ _))).
    + apply List.Forall_forall. intros g Hg. cbn in Hg.
      apply filter_In in Hg as [_ Hg]. now apply Z.ltb_lt.
    + apply filter_sublist.
    + intros g Hg Hpos. cbn. apply filter_In. split; [exact Hg|now apply Z.ltb_lt].
    + unfold m1, Games.remove_out_of_stock. cbn. now rewrite filter_idem.
  - intros m threshold m1. refine (conj _ (conj _ (conj _ _))).
    + apply List.Forall_forall. intros c Hc. cbn in Hc.
      apply filter_In in Hc as [_ Hc]. split; [exact Hc|].
      apply not_nan_spec. intros Hnan.
      rewrite FloatAxioms.leb_spec, Hnan in Hc. revert Hc.
      unfold SFleb, SFcompare. now destruct (Prim2SF threshold).
    + apply filter_sublist.
    + intros c Hc Hok. cbn. apply filter_In. now split.
    + unfold m1, Courses.remove_low_rating_courses. cbn. now rewrite filter_idem.
Qed.

Lemma cleanups_effect_witness :
  In (Games.new "FIFA 23" "Sports" "PS5" 3 8.0 69.99 10)
    (Games.games
       (Games.remove_out_of_stock
          {| Games.games := [Games.new "The Last of Us" "Action" "PS5" 18 9.5 59.99 0;
                             Games.new "FIFA 23" "Sports" "PS5" 3 8.0 69.99 10] |})).
Proof.
  destruct cleanups_effect as [Hg _].
  destruct (Hg {| Games.games := [Games.new "The Last of Us" "Action" "PS5" 18 9.5 59.99 0;
                                  Games.new "FIFA 23" "Sports" "PS5" 3 8.0 69.99 10] |})
    as (_ & _ & Hin & _).
  apply Hin; [right; now left|reflexivity].
Defined.

(** X23. [merge_platforms] returns, in order, the courses whose platform
    equals one of the two names up to case; the order of the two names
    does not matter; and with the same non-empty name twice it returns
    what [search_by_platform_and_difficulty] returns for that platform
    alone. *)
Theorem merge_platforms_spec (lower : string -> string) (m : Courses.CourseManager)
    (p1 p2 : string) :
  (forall c, In c (Courses.merge_platforms lower p1 p2 m) <->
             In c (Courses.courses m)
             /\ (lower (Courses.platform c) = lower p1
                 \/ lower (Courses.platform c) = lower p2))
  /\ sublist (Courses.merge_platforms lower p1 p2 m) (Courses.courses m)
  /\ Courses.merge_platforms lower p1 p2 m = Courses.merge_platforms lower p2 p1 m
  /\ (str_truthy p1 = true ->
      Courses.merge_platforms lower p1 p1 m
      = Courses.search_by_platform_and_difficulty lower (Some p1) None m).
Proof.
  refine (conj _ (conj _ (conj _ _))).
  - intros c. unfold Courses.merge_platforms. rewrite filter_In, orb_true_iff.
    rewrite !String.eqb_eq. reflexivity.
  - apply filter_sublist.
  - unfold Courses.merge_platforms. apply filter_ext. intros c. apply orb_comm.
  - intros Hp. unfold Courses.merge_platforms, Courses.search_by_platform_and_difficulty.
    rewrite Hp. apply filter_ext. intros c. apply orb_diag.
Qed.

Lemma merge_platforms_spec_witness :
  Courses.merge_platforms (fun s => s) "Udemy" "Udemy"
    {| Courses.courses :=
         [{| Courses.title := "ML"; Courses.platform := "Udemy";
             Courses.difficulty := "advanced"; Courses.duration_hours := 56;
             Courses.rating := 4.8; Courses.price := 89.99;
             Courses.students_enrolled := 8000 |}] |}
  = Courses.search_by_platform_and_difficulty (fun s => s) (Some "Udemy") None
      {| Courses.courses :=
           [{| Courses.title := "ML"; Courses.platform := "Udemy";
               Courses.difficulty := "advanced"; Courses.duration_hours := 56;
               Courses.rating := 4.8; Courses.price := 89.99;
               Courses.students_enrolled := 8000 |}] |}.
Proof.
  apply (proj2 (proj2 (proj2 (merge_platforms_spec (fun s => s)
           {| Courses.courses :=
                [{| Courses.title := "ML"; Courses.platform := "Udemy";
                    Courses.difficulty := "advanced"; Courses.duration_hours := 56;
                    Courses.rating := 4.8; Courses.price := 89.99;
                    Courses.students_enrolled := 8000 |}] |} "Udemy" "Udemy")))).
  reflexivity.
Defined.

(** X24. [courses_longer_than] narrows as the bound grows: for
    [h1 <= h2] the courses longer than [h2] are a subsequence of those
    longer than [h1], and every course returned is strictly longer than
    the bound. *)
Theorem courses_longer_than_antitone (m : Courses.CourseManager) (h1 h2 : Z) :
  h1 <= h2 ->
  sublist (Courses.courses_longer_than h2 m) (Courses.courses_longer_than h1 m)
  /\ Forall (fun c => h2 < Courses.duration_hours c) (Courses.courses_longer_than h2 m).
Proof.
  intros H. split.
  - apply filter_sublist_impl. intros c. rewrite !Z.ltb_lt. lia.
  - apply List.Forall_forall. intros c Hc.
    apply filter_In in Hc as [_ Hc]. now apply Z.ltb_lt.
Qed.

Lemma courses_longer_than_antitone_witness :
  sublist
    (Courses.courses_longer_than 50
       {| Courses.courses :=
            [{| Courses.title := "ML"; Courses.platform := "Udemy";
                Courses.difficulty := "advanced"; Courses.duration_hours := 56;
                Courses.rating := 4.8; Courses.price := 89.99;
                Courses.students_enrolled := 8000 |};
             {| Courses.title := "Web"; Courses.platform := "Stepik";
                Courses.difficulty := "medium"; Courses.duration_hours := 42;
                Courses.rating := 4.2; Courses.price := 59.99;
                Courses.students_enrolled := 12000 |}] |})
    (Courses.courses_longer_than 20
       {| Courses.courses :=
            [{| Courses.title := "ML"; Courses.platform := "Udemy";
                Courses.difficulty := "advanced"; Courses.duration_hours := 56;
                Courses.rating := 4.8; Courses.price := 89.99;
                Courses.students_enrolled := 8000 |};
             {| Courses.title := "Web"; Courses.platform := "Stepik";
                Courses.difficulty := "medium"; Courses.duration_hours := 42;
                Courses.rating := 4.2; Courses.price := 59.99;
                Courses.students_enrolled := 12000 |}] |}).
Proof.
  apply (courses_longer_than_antitone
           {| Courses.courses :=
                [{| Courses.title := "ML"; Courses.platform := "Udemy";
                    Courses.difficulty := "advanced"; Courses.duration_hours := 56;
                    Courses.rating := 4.8; Courses.price := 89.99;
                    Courses.students_enrolled := 8000 |};
                 {| Courses.title := "Web"; Courses.platform := "Stepik";
                    Courses.difficulty := "medium"; Courses.duration_hours := 42;
                    Courses.rating := 4.2; Courses.price := 59.99;
                    Courses.students_enrolled := 12000 |}] |} 20 50).
  lia.
Defined.

(** X25. [sort_games] and [sort_courses] never lose or invent a record:
    whatever the key name and direction, the result is a rearrangement of
    the list; for a key name they do not know, it is the list itself,
    unsorted. *)
Theorem sort_by_name_of_key (lower : string -> string) (by_ : string)
    (ascending : bool) :
  (forall m, Permutation (Games.sort_games lower by_ ascending m) (Games.games m))
  /\ (forall m, Permutation (Courses.sort_courses by_ ascending m) (Courses.courses m))
  /\ (by_ <> "score" -> by_ <> "name" ->
      forall m, Games.sort_games lower by_ ascending m = Games.games m)
  /\ (by_ <> "duration" -> by_ <> "students" ->
      forall m, Courses.sort_courses by_ ascending m = Courses.courses m).
Proof.
  refine (conj _ (conj _ (conj _ _))).
  - intros m. unfold Games.sort_games.
    destruct (String.eqb by_ "score"); [apply sorted_perm|].
    destruct (String.eqb by_ "name"); [apply sorted_perm|reflexivity].
  - intros m. unfold Courses.sort_courses.
    destruct (String.eqb by_ "duration"); [apply sorted_perm|].
    destruct (String.eqb by_ "students"); [apply sorted_perm|reflexivity].
  - intros H1 H2 m. unfold Games.sort_games.
    apply String.eqb_neq in H1, H2. now rewrite H1, H2.
  - intros H1 H2 m. unfold Courses.sort_courses.
    apply String.eqb_neq in H1, H2. now rewrite H1, H2.
Qed.

Lemma sort_by_name_of_key_witness :
  Courses.sort_courses "price" true
    {| Courses.courses :=
         [{| Courses.title := "ML"; Courses.platform := "Udemy";
             Courses.difficulty := "advanced"; Courses.duration_hours := 56;
             Courses.rating := 4.8; Courses.price := 89.99;
             Courses.students_enrolled := 8000 |}] |}
  = [{| Courses.title := "ML"; Courses.platform := "Udemy";
        Courses.difficulty := "advanced"; Courses.duration_hours := 56;
        Courses.rating := 4.8; Courses.price := 89.99;
        Courses.students_enrolled := 8000 |}].
Proof.
  apply (proj2 (proj2 (proj2 (sort_by_name_of_key (fun s => s) "price" true))));
    discriminate.
Defined.

Lemma optional_same_text_filter {A} (lower : string -> string) (field : A -> string)
    (o : option string) (l : list A) :
  match o with
  | Some t =>
      if str_truthy t
      then List.filter (fun x => String.eqb (lower (field x)) (lower t)) l
      else l
  | None => l
  end
  = List.filter (same_text_criterion lower field o) l.
Proof.
  destruct o as [t|]; unfold same_text_criterion; simpl.
  - destruct (str_truthy t); [reflexivity|].
    symmetry. now apply filter_keeps_all.
  - symmetry. now apply filter_keeps_all.
Qed.

(** X26. [filter_games] and [search_by_platform_and_difficulty] return,
    in order, the records meeting every given criterion, everything when
    none is given, and a subsequence of their former result when criteria
    are added. An empty platform text is a criterion for [filter_games]
    but counts as omitted for the course search. *)
Theorem list_filters_narrow (lower : string -> string) :
  (forall m,
     Games.filter_games lower None None m = Games.games m
     /\ (forall a p, Games.filter_games lower a p m
                     = List.filter (game_meets lower a p) (Games.games m))
     /\ (forall a p a' p', adds a a' -> adds p p' ->
           sublist (Games.filter_games lower a' p' m) (Games.filter_games lower a p m)))
  /\
  (forall m,
     Courses.search_by_platform_and_difficulty lower None None m = Courses.courses m
     /\ Courses.search_by_platform_and_difficulty lower (Some "") (Some "") m
        = Courses.courses m
     /\ (forall p d, Courses.search_by_platform_and_difficulty lower p d m
                     = List.filter (course_meets lower p d) (Courses.courses m))
     /\ (forall p d p' d', adds p p' -> adds d d' ->
           sublist (Courses.search_by_platform_and_difficulty lower p' d' m)
             (Courses.search_by_platform_and_difficulty lower p d m))).
Proof.
  assert (Hg : forall m a p, Games.filter_games lower a p m
                             = List.filter (game_meets lower a p) (Games.games m)).
  { intros m a p. unfold Games.filter_games.
    rewrite (optional_filter (fun a g => Games.age_rating g =? a) a).
    rewrite (optional_filter
               (fun p g => String.eqb (lower (Games.platform g)) (lower p)) p).
    now rewrite filter_filter_and. }
  assert (Hc : forall m p d, Courses.search_by_platform_and_difficulty lower p d m
                             = List.filter (course_meets lower p d) (Courses.courses m)).
  { intros m p d. unfold Courses.search_by_platform_and_difficulty.
    rewrite (optional_same_text_filter lower Courses.platform p).
    rewrite (optional_same_text_filter lower Courses.difficulty d).
    now rewrite filter_filter_and. }
  split; intros m.
  - refine (conj _ (conj _ _)); [reflexivity|apply Hg|].
    intros a p a' p' Ha Hp. rewrite !Hg.
    apply filter_sublist_impl. intros x. unfold game_meets.
    rewrite !andb_true_iff. intros [H1 H2].
    split; eapply criterion_adds; eassumption.
  - refine (conj _ (conj _ (conj _ _))); [reflexivity|reflexivity|apply Hc|].
    intros p d p' d' Hp Hd. rewrite !Hc.
    apply filter_sublist_impl. intros x. unfold course_meets, same_text_criterion.
    rewrite !andb_true_iff. intros [H1 H2].
    split; eapply criterion_adds; eassumption.
Qed.

Lemma list_filters_narrow_witness :
  sublist
    (Games.filter_games (fun s => s) (Some 18) (Some "PC")
       {| Games.games := [Games.new "The Witcher 3" "RPG" "PC" 18 9.7 39.99 50] |})
    (Games.filter_games (fun s => s) (Some 18) None
       {| Games.games := [Games.new "The Witcher 3" "RPG" "PC" 18 9.7 39.99 50] |}).
Proof.
  destruct (list_filters_narrow (fun s => s)) as [Hg _].
  destruct (Hg {| Games.games := [Games.new "The Witcher 3" "RPG" "PC" 18 9.7 39.99 50] |})
    as (_ & _ & Hsub).
  apply Hsub; [now right|now left].
Defined.
